(** * k8s-snapshots: the Google Compute backend

    A shallow embedding of [k8s_snapshots/backends/google.py]: the
    validation of the configuration, the disk identifier resolver, the
    snapshot list filter and the two-phase snapshot status check, with the
    properties its specification states about them. *)

From Stdlib Require Import NArith String Ascii Bool List Lia.
From stdpp Require Import base option gmap strings list fin_maps.

Open Scope string_scope.

(** ** The Python values the backend handles *)

Module Py.

(** A [str] is a sequence of code points. ASCII code points are
    classified here; for the others Python consults its Unicode
    database, which the model takes as a table. *)
Record ucd := {
  ucd_alnum : ascii -> bool;   (* str.isalnum, as [\w] uses it *)
  ucd_alpha : ascii -> bool;   (* str.isalpha *)
  ucd_lower : ascii -> bool;   (* property Lowercase *)
  ucd_upper : ascii -> bool    (* property Uppercase, or titlecase *)
}.

Definition code (c : ascii) : N := N_of_ascii c.

Definition between (lo hi c : ascii) : bool :=
  ((code lo <=? code c) && (code c <=? code hi))%N.

Definition is_ascii (c : ascii) : bool := (code c <? 128)%N.

Definition ascii_lower (c : ascii) : bool := between "a" "z" c.
Definition ascii_upper (c : ascii) : bool := between "A" "Z" c.
Definition ascii_digit (c : ascii) : bool := between "0" "9" c.

Section Classes.
Variable U : ucd.

Definition isalpha (c : ascii) : bool :=
  if is_ascii c then ascii_lower c || ascii_upper c else ucd_alpha U c.

Definition isalnum (c : ascii) : bool :=
  if is_ascii c then ascii_lower c || ascii_upper c || ascii_digit c
  else ucd_alnum U c.

Definition islower_char (c : ascii) : bool :=
  if is_ascii c then ascii_lower c else ucd_lower U c.

Definition isupper_char (c : ascii) : bool :=
  if is_ascii c then ascii_upper c else ucd_upper U c.

(** [str.islower()]: false at the first uppercase or titlecase
    character; otherwise true when a lowercase character was seen. *)
Fixpoint islower_from (cased : bool) (s : string) : bool :=
  match s with
  | EmptyString => cased
  | String c t =>
      if isupper_char c then false
      else islower_from (cased || islower_char c) t
  end.

Definition islower (s : string) : bool := islower_from false s.
End Classes.

(** JSON documents, as the Kubernetes and Compute APIs return them. *)
#[warnings="-register-all"] Inductive json :=
| JNull
| JStr (s : string)
| JObj (fields : gmap string json).

(** Modelled from the spec: [UnsupportedVolume] and [SnapshotCreateError]
    of [k8s_snapshots/errors.py], which carry the argument they are
    raised with; the other exceptions are those of the language. *)
Inductive exn :=
| KeyError (key : string)
| IndexError
| TypeError
| UnboundLocalError (name : string)
| RuntimeError (msg : string)
| UnsupportedVolume (msg : string)
| SnapshotCreateError (status : json)
| LibraryError (what : string).   (* raised inside a client library *)

Inductive result (A : Type) :=
| Ok (a : A)
| Raise (e : exn).
Arguments Ok {A} a.
Arguments Raise {A} e.

(** A call into a client library returns, or fails inside the library. *)
Inductive outcome (A : Type) :=
| Returned (a : A)
| Failed (what : string).
Arguments Returned {A} a.
Arguments Failed {A} what.

Definition from_library {A} (o : outcome A) : result A :=
  match o with
  | Returned a => Ok a
  | Failed what => Raise (LibraryError what)
  end.

(** Statements run over a state [St] (local variables, the log, the
    remote service) and either produce a value or raise; the state
    reached so far survives a raise. *)
Definition M (St A : Type) : Type := St -> result A * St.

Definition ret {St A} (a : A) : M St A := fun s => (Ok a, s).
Definition raise {St A} (e : exn) : M St A := fun s => (Raise e, s).
Definition bind {St A B} (m : M St A) (k : A -> M St B) : M St B :=
  fun s => match m s with
           | (Ok a, s') => k a s'
           | (Raise e, s') => (Raise e, s')
           end.
Definition modify {St} (f : St -> St) : M St unit := fun s => (Ok tt, f s).
Definition lift {St A} (r : result A) : M St A := fun s => (r, s).

(** [d[key]] on a dict. *)
Definition getitem {V} (d : gmap string V) (key : string) : result V :=
  match d !! key with
  | Some v => Ok v
  | None => Raise (KeyError key)
  end.

(** [j[key]] on a JSON value: only an object can be indexed by a key. *)
Definition jgetitem (j : json) (key : string) : result json :=
  match j with
  | JObj fields => getitem fields key
  | _ => Raise TypeError
  end.

(** [j == s] for a JSON value [j] and a str literal [s]. *)
Definition eq_str (j : json) (s : string) : bool :=
  match j with
  | JStr s' => String.eqb s' s
  | _ => false
  end.

(** A dict whose insertion order is observed: [list(d.keys())] lists
    the keys in that order. *)
Definition odict (V : Type) : Type := list (string * V).

Definition keys {V} (d : odict V) : list string := map fst d.

Fixpoint ogetitem {V} (d : odict V) (key : string) : result V :=
  match d with
  | [] => Raise (KeyError key)
  | (k, v) :: rest => if String.eqb k key then Ok v else ogetitem rest key
  end.

(** [xs[0]] on a list. *)
Definition first {A} (xs : list A) : result A :=
  match xs with
  | [] => Raise IndexError
  | x :: _ => Ok x
  end.

(** Iterating over a set of str visits its elements in an order that
    the language does not fix; [flip] selects between the two orders
    of a two-element set. *)
Definition iterate (flip : bool) (s : gset string) : list string :=
  if flip then reverse (elements s) else elements s.

(** [s[0]] on a str. *)
Definition first_char (s : string) : result ascii :=
  match s with
  | EmptyString => Raise IndexError
  | String c _ => Ok c
  end.

(** [for x in xs: body]. *)
Fixpoint for_each {St A} (xs : list A) (body : A -> M St unit) : M St unit :=
  match xs with
  | [] => ret tt
  | x :: rest => bind (body x) (fun _ => for_each rest body)
  end.

End Py.

Import Py.

(** Sequencing, for code that can only raise and for code that also
    changes a state. *)
#[global] Instance result_ret : MRet result := @Ok.
#[global] Instance result_bind : MBind result :=
  fun A B k r => match r with Ok a => k a | Raise e => Raise e end.
#[global] Instance M_ret {St} : MRet (M St) := @Py.ret St.
#[global] Instance M_bind {St} : MBind (M St) := fun A B k m => Py.bind m k.

(** ** The regular expressions of [re], as far as the backend uses them *)

Module Re.

Inductive regex :=
| Bol                                   (* ^ *)
| Eol                                   (* $ *)
| Set_ (cls : ascii -> bool)            (* [...] *)
| Cat (r1 r2 : regex)                   (* r1 r2 *)
| Opt (r : regex)                       (* (?:r)? *)
| Rep (cls : ascii -> bool) (lo hi : nat).   (* [...]{lo,hi} *)

(** Text left to read, and whether the position is the start of the
    subject; [k] is what must still match after the expression. *)
Fixpoint rep (cls : ascii -> bool) (lo hi : nat) (start : bool) (s : string)
    (k : bool -> string -> bool) : bool :=
  match hi with
  | O => Nat.eqb lo 0 && k start s
  | S hi' =>
      match s with
      | String c t => cls c && rep cls (Nat.pred lo) hi' false t k
      | EmptyString => false
      end
      || (Nat.eqb lo 0 && k start s)
  end.

(** [$] matches at the end of the subject, and before a newline that
    ends the subject. *)
Definition at_end (s : string) : bool :=
  match s with
  | EmptyString => true
  | String c EmptyString => (code c =? 10)%N
  | _ => false
  end.

Fixpoint run (r : regex) (start : bool) (s : string)
    (k : bool -> string -> bool) : bool :=
  match r with
  | Bol => start && k start s
  | Eol => at_end s && k start s
  | Set_ cls =>
      match s with
      | String c t => cls c && k false t
      | EmptyString => false
      end
  | Cat r1 r2 => run r1 start s (fun st t => run r2 st t k)
  | Opt r1 => run r1 start s k || k start s
  | Rep cls lo hi => rep cls lo hi start s k
  end.

(** [re.match(pattern, s)] as a truth value: the pattern matches at the
    start of [s], whatever follows the match. *)
Definition match_ (r : regex) (s : string) : bool :=
  run r true s (fun _ _ => true).

End Re.

(** ** [k8s_snapshots/backends/google.py] *)

(** [GOOGLE_SNAPSHOT_NAME_REGEX = r'^(?:[a-z](?:[-a-z0-9]{0,61}[a-z0-9])?)$'] *)
Definition lower_az (c : ascii) : bool := between "a" "z" c.
Definition lower_az09 (c : ascii) : bool :=
  between "a" "z" c || between "0" "9" c.
Definition dash_lower_az09 (c : ascii) : bool :=
  Ascii.eqb c "-" || between "a" "z" c || between "0" "9" c.

Definition GOOGLE_SNAPSHOT_NAME_REGEX : Re.regex :=
  Re.Cat Re.Bol
    (Re.Cat
       (Re.Cat (Re.Set_ lower_az)
               (Re.Opt (Re.Cat (Re.Rep dash_lower_az09 0 61)
                               (Re.Set_ lower_az09))))
       Re.Eol).

(** What [_logger.error('config.error', ...)] records: the violation of
    the snapshot name rule, or of a label rule on a configuration key. *)
Inductive log_event :=
| DatetimeFormatError (test_snapshot_name : string)
| LabelError (key : string) (is_glabel_key is_lower : bool) (value : string).

Definition event_key (e : log_event) : string :=
  match e with
  | DatetimeFormatError _ => "snapshot_datetime_format"
  | LabelError key _ _ _ => key
  end.

(** The local variable [is_valid] of [validate_config] (unbound until
    assigned) and what the module logger has received. *)
Record frame := { is_valid : option bool; log : list log_event }.

Definition error (e : log_event) : M frame unit :=
  modify (fun f => {| is_valid := is_valid f; log := log f ++ [e] |}).

Definition assign_is_valid (b : bool) : M frame unit :=
  modify (fun f => {| is_valid := Some b; log := log f |}).

Definition read_is_valid : M frame bool :=
  fun f => (match is_valid f with
            | Some b => Ok b
            | None => Raise (UnboundLocalError "is_valid")
            end, f).

(** Modelled from the spec: the enum [SnapshotStatus] of
    [backends/abstract.py], with the members PENDING, COMPLETE, FAILED. *)
Inductive SnapshotStatus := PENDING | COMPLETE | FAILED.

Record GoogleDiskIdentifier := { name : json; zone : string }.

(** A [pykube.objects.PersistentVolume]: the API object and the labels
    and annotations of its metadata. *)
Record PersistentVolume := {
  obj : json;
  labels : gmap string string;
  annotations : gmap string string
}.

Record Context := { config : gmap string string }.

(** The requests the backend executes against the Compute API. *)
Inductive request :=
| ZoneOperationsGet (project zone operation : string)
| SnapshotsGet (snapshot project : string).

(** What lies outside this module: the clock behind [pendulum], the
    Unicode tables, the credential and client libraries, and the Compute
    service, whose state [remote] a request may read and change. *)
Record platform := {
  unicode : ucd;
  now_format : string -> string;      (* pendulum.now('utc').format(fmt) *)
  credentials : Type;
  client : Type;
  remote : Type;
  from_json_keyfile_name : string -> outcome credentials;
  from_json_keyfile_string : string -> outcome credentials;
  get_application_default : outcome (option credentials);
  discovery_build : credentials -> outcome client;
  execute : client -> request -> remote -> outcome json * remote
}.

Section Backend.
Variable P : platform.

(** [GOOGLE_LABEL_REGEX = r'^(?:[-\w]{0,63})$'] *)
Definition dash_word (c : ascii) : bool :=
  Ascii.eqb c "-" || isalnum (unicode P) c || Ascii.eqb c "_".

Definition GOOGLE_LABEL_REGEX : Re.regex :=
  Re.Cat Re.Bol (Re.Cat (Re.Rep dash_word 0 63) Re.Eol).

Definition glabel_key_keys : gset string := {[ "snapshot_author_label" ]}.
Definition glabel_value_keys : gset string := {[ "snapshot_author_label_key" ]}.

(** [re_match and value.islower() and value[0].isalpha() or not is_glabel_key] *)
Definition is_glabel_valid (value : string) (is_glabel_key : bool)
    : result bool :=
  let re_match := Re.match_ GOOGLE_LABEL_REGEX value in
  as_key ← (if re_match && islower (unicode P) value
            then c ← first_char value; mret (isalpha (unicode P) c)
            else mret false);
  mret (as_key || negb is_glabel_key).

Definition check_label (config : gmap string string) (key : string)
    : M frame unit :=
  value ← lift (getitem config key);
  let is_glabel_key := bool_decide (key ∈ glabel_key_keys) in
  valid ← lift (is_glabel_valid value is_glabel_key);
  if negb valid then
    error (LabelError key is_glabel_key (islower (unicode P) value) value);;
    assign_is_valid false
  else mret tt.

Definition validate_config_body (order : bool) (config : gmap string string)
    : M frame bool :=
  fmt ← lift (getitem config "snapshot_datetime_format");
  let test_datetime := now_format P fmt in
  let test_snapshot_name := "dummy-snapshot-" ++ test_datetime in
  (if negb (Re.match_ GOOGLE_SNAPSHOT_NAME_REGEX test_snapshot_name) then
     error (DatetimeFormatError test_snapshot_name);;
     assign_is_valid false
   else mret tt);;
  for_each (iterate order (glabel_key_keys ∪ glabel_value_keys))
           (check_label config);;
  read_is_valid.

(** A call of [validate_config]: what it returns or raises, and what it
    has logged. [order] is the order in which the loop visits the two
    label fields. *)
Definition validate_config (order : bool) (config : gmap string string)
    : result bool * list log_event :=
  let '(r, f) := validate_config_body order config
                   {| is_valid := None; log := [] |} in
  (r, log f).

Definition get_disk_identifier (volume : PersistentVolume)
    : result GoogleDiskIdentifier :=
  spec ← jgetitem (obj volume) "spec";
  pd ← jgetitem spec "gcePersistentDisk";
  gce_disk ← jgetitem pd "pdName";
  let gce_disk_zone :=
    labels volume !! "failure-domain.beta.kubernetes.io/zone" in
  match gce_disk_zone with
  | None | Some EmptyString =>          (* not gce_disk_zone *)
      Raise (UnsupportedVolume "cannot find the zone of the disk")
  | Some z => mret {| name := gce_disk; zone := z |}
  end.

Definition supports_volume (volume : PersistentVolume) : bool :=
  let provisioner := annotations volume !! "pv.kubernetes.io/provisioned-by" in
  bool_decide (provisioner = Some "kubernetes.io/gce-pd").

Definition snapshot_list_filter_expr (label_filters : odict string)
    : result string :=
  key ← first (keys label_filters);
  value ← ogetitem label_filters key;
  mret ("labels." ++ key ++ " eq " ++ value).

Definition get_gcloud (ctx : Context) : result (client P) :=
  let credentials := None in
  credentials ←
    match config ctx !! "gcloud_json_keyfile_name" with
    | None | Some EmptyString => mret credentials
    | Some keyfile_name =>
        c ← from_library (from_json_keyfile_name P keyfile_name); mret (Some c)
    end;
  credentials ←
    match config ctx !! "gcloud_json_keyfile_string" with
    | None | Some EmptyString => mret credentials
    | Some keyfile_string =>
        c ← from_library (from_json_keyfile_string P keyfile_string);
        mret (Some c)
    end;
  credentials ←
    match credentials with
    | Some c => mret (Some c)
    | None => from_library (get_application_default P)
    end;
  match credentials with
  | None => Raise (RuntimeError "Auth for Google Cloud was not configured")
  | Some c => from_library (discovery_build P c)
  end.

(** The state a status check runs in: the service, and the requests
    executed so far with their responses. The handle of a snapshot being
    created is the dict that [create_snapshot] returns. *)
Record world := { service : remote P; trace : list (request * outcome json) }.

Definition send (gcloud : client P) (rq : request) : M world json :=
  fun w =>
    let '(resp, s') := execute P gcloud rq (service w) in
    (from_library resp,
     {| service := s'; trace := trace w ++ [(rq, resp)] |}).

Definition get_snapshot_status (ctx : Context)
    (snapshot_identifier : gmap string string) : M world SnapshotStatus :=
  gcloud ← lift (get_gcloud ctx);
  project ← lift (getitem (config ctx) "gcloud_project");
  zone ← lift (getitem snapshot_identifier "zone");
  operation_name ← lift (getitem snapshot_identifier "operation_name");
  operation ← send gcloud (ZoneOperationsGet project zone operation_name);
  op_status ← lift (jgetitem operation "status");
  if negb (eq_str op_status "DONE") then mret PENDING
  else
    snapshot_name ← lift (getitem snapshot_identifier "snapshot_name");
    project ← lift (getitem (config ctx) "gcloud_project");
    snapshot ← send gcloud (SnapshotsGet snapshot_name project);
    status ← lift (jgetitem snapshot "status");
    if eq_str status "FAILED" then raise (SnapshotCreateError status)
    else if negb (eq_str status "READY") then mret PENDING
    else mret COMPLETE.

End Backend.

Arguments service {P} w.
Arguments trace {P} w.

(** ** Reference notions the properties are stated with *)

Definition newline : ascii := "010".

Fixpoint all_in (cls : ascii -> bool) (s : string) : bool :=
  match s with
  | EmptyString => true
  | String c t => cls c && all_in cls t
  end.

Definition is_empty (s : string) : bool :=
  match s with EmptyString => true | _ => false end.

(** [s] without the newline that ends it, if one does. *)
Fixpoint chomp (s : string) : string :=
  match s with
  | EmptyString => EmptyString
  | String c t =>
      match t with
      | EmptyString => if Ascii.eqb c newline then EmptyString else s
      | String _ _ => String c (chomp t)
      end
  end.

Fixpoint ends_with (c : ascii) (s : string) : bool :=
  match s with
  | EmptyString => false
  | String d t =>
      match t with
      | EmptyString => Ascii.eqb d c
      | String _ _ => ends_with c t
      end
  end.

(** A snapshot name as the provider accepts it: a lowercase letter, then
    lowercase letters, digits and dashes, 63 characters at most, the last
    one not a dash. *)
Definition valid_snapshot_name (s : string) : bool :=
  match s with
  | EmptyString => false
  | String c t =>
      lower_az c && all_in dash_lower_az09 t
      && (String.length t <=? 62)%nat && negb (ends_with "-" t)
  end.


(** A label as the provider accepts it, case and first letter apart: 63
    characters at most, each a dash or a word character. *)
Definition valid_label (P : platform) (s : string) : bool :=
  (String.length s <=? 63)%nat && all_in (dash_word P) s.

(** The rule [validate_config] applies to a key-typed field. *)
Definition valid_label_key (P : platform) (value : string) : bool :=
  Re.match_ (GOOGLE_LABEL_REGEX P) value
  && islower (unicode P) value
  && match value with
     | String c _ => isalpha (unicode P) c
     | EmptyString => false
     end.

(** Whether a log holds a violation reported for the configuration key
    [key]. *)
Definition reported (key : string) (l : list log_event) : bool :=
  existsb (fun e => String.eqb (event_key e) key) l.

(** The frame of [validate_config] once the snapshot name rule has run. *)
Definition after_name_rule (name : string) : frame :=
  if Re.match_ GOOGLE_SNAPSHOT_NAME_REGEX name
  then {| is_valid := None; log := [] |}
  else {| is_valid := Some false; log := [DatetimeFormatError name] |}.

(** The frame once the rule on the key-typed field has run on [value]. *)
Definition after_label_rule (P : platform) (value : string) (f : frame) : frame :=
  if valid_label_key P value then f
  else {| is_valid := Some false;
          log := log f ++ [LabelError "snapshot_author_label" true
                             (islower (unicode P) value) value] |}.

(** The field [spec.gcePersistentDisk.pdName] of a volume. *)
Definition pd_name (volume : PersistentVolume) : result json :=
  spec ← jgetitem (obj volume) "spec";
  pd ← jgetitem spec "gcePersistentDisk";
  jgetitem pd "pdName".

Definition zone_label (volume : PersistentVolume) : option string :=
  labels volume !! "failure-domain.beta.kubernetes.io/zone".

Section Observations.
Variable P : platform.

(** What the service answers to the operation read of a status check
    started in [w], and then to its snapshot read. *)
Definition operation_status (gcloud : client P) (project zone operation : string)
    (w : world P) : result json :=
  match from_library
          (fst (execute P gcloud (ZoneOperationsGet project zone operation)
                  (service w))) with
  | Ok op => jgetitem op "status"
  | Raise e => Raise e
  end.

Definition snapshot_status (gcloud : client P)
    (project zone operation snapshot : string) (w : world P) : result json :=
  let s1 := snd (execute P gcloud (ZoneOperationsGet project zone operation)
                   (service w)) in
  match from_library (fst (execute P gcloud (SnapshotsGet snapshot project) s1)) with
  | Ok snap => jgetitem snap "status"
  | Raise e => Raise e
  end.

(** The status a snapshot resource stands for. *)
Definition verdict (status : result json) : result SnapshotStatus :=
  match status with
  | Raise e => Raise e
  | Ok st =>
      if eq_str st "FAILED" then Raise (SnapshotCreateError st)
      else if eq_str st "READY" then Ok COMPLETE
      else Ok PENDING
  end.

(** [n] status checks of one handle, one after the other. *)
Fixpoint polls (ctx : Context) (handle : gmap string string) (n : nat)
    (w : world P) : list (result SnapshotStatus) * world P :=
  match n with
  | O => ([], w)
  | S n' =>
      let '(r, w1) := get_snapshot_status P ctx handle w in
      let '(rs, w2) := polls ctx handle n' w1 in
      (r :: rs, w2)
  end.
End Observations.

Definition reads_operation (x : request * outcome json) : bool :=
  match fst x with
  | ZoneOperationsGet _ _ _ => true
  | SnapshotsGet _ _ => false
  end.

Definition reads_snapshot (x : request * outcome json) : bool :=
  match fst x with
  | ZoneOperationsGet _ _ _ => false
  | SnapshotsGet _ _ => true
  end.

(** How many operation reads, and snapshot reads, a trace holds. *)
Definition operation_reads (t : list (request * outcome json)) : nat :=
  List.length (List.filter reads_operation t).

Definition snapshot_reads (t : list (request * outcome json)) : nat :=
  List.length (List.filter reads_snapshot t).

Definition reports_done (x : request * outcome json) : bool :=
  match x with
  | (ZoneOperationsGet _ _ _, Returned op) =>
      match jgetitem op "status" with
      | Ok st => eq_str st "DONE"
      | Raise _ => false
      end
  | _ => false
  end.

(** An operation read that follows, in a trace, an operation read that
    reported DONE. *)
Fixpoint operation_read_after_done (t : list (request * outcome json)) : bool :=
  match t with
  | [] => false
  | x :: rest =>
      (reports_done x && existsb reads_operation rest)
      || operation_read_after_done rest
  end.

(** What stops a status check before its first request: no client, no
    project in the configuration, or a handle without its zone or its
    operation name. *)
Definition cannot_start (P : platform) (ctx : Context)
    (handle : gmap string string) : Prop :=
  (exists e, get_gcloud P ctx = Raise e) \/
  config ctx !! "gcloud_project" = None \/
  handle !! "zone" = None \/
  handle !! "operation_name" = None.

(** ** A platform to run the backend on *)

Module Sample.

(** No code point outside ASCII is classified. *)
Definition ascii_only : ucd :=
  {| ucd_alnum := fun _ => false; ucd_alpha := fun _ => false;
     ucd_lower := fun _ => false; ucd_upper := fun _ => false |}.

(** The fields of a clock reading, as [strftime] prints them. *)
Record reading := { dY : string; dy : string; dm : string; dd : string;
                    dH : string; dMin : string; dS : string }.

Definition directive (r : reading) (d : ascii) : option string :=
  if Ascii.eqb d "Y" then Some (dY r)
  else if Ascii.eqb d "y" then Some (dy r)
  else if Ascii.eqb d "m" then Some (dm r)
  else if Ascii.eqb d "d" then Some (dd r)
  else if Ascii.eqb d "H" then Some (dH r)
  else if Ascii.eqb d "M" then Some (dMin r)
  else if Ascii.eqb d "S" then Some (dS r)
  else None.

Fixpoint strftime (r : reading) (fmt : string) : string :=
  match fmt with
  | EmptyString => EmptyString
  | String c rest =>
      match rest with
      | String d rest' =>
          if Ascii.eqb c "%" then
            match directive r d with
            | Some s => s ++ strftime r rest'
            | None => String c (String d (strftime r rest'))
            end
          else String c (strftime r rest)
      | EmptyString => String c EmptyString
      end
  end.

(** 4 November 2026, 12:00:00 UTC. *)
Definition noon : reading :=
  {| dY := "2026"; dy := "26"; dm := "11"; dd := "04";
     dH := "12"; dMin := "00"; dS := "00" |}.

Definition operation_resource (status : string) : json :=
  JObj {[ "kind" := JStr "compute#operation"; "status" := JStr status ]}.

Definition snapshot_resource (status : string) : json :=
  JObj {[ "kind" := JStr "compute#snapshot"; "status" := JStr status ]}.

(** A service that answers from a script: the status of the operation
    at each operation read, the status of the snapshot at each snapshot
    read; once a script is down to one entry the answer stays. *)
Record script := { operation_says : list string; snapshot_says : list string }.

Definition answer (l : list string) : string * list string :=
  match l with
  | [] => (EmptyString, [])
  | [x] => (x, [x])
  | x :: rest => (x, rest)
  end.

Definition serve (rq : request) (s : script) : outcome json * script :=
  match rq with
  | ZoneOperationsGet _ _ _ =>
      let '(st, rest) := answer (operation_says s) in
      (Returned (operation_resource st),
       {| operation_says := rest; snapshot_says := snapshot_says s |})
  | SnapshotsGet _ _ =>
      let '(st, rest) := answer (snapshot_says s) in
      (Returned (snapshot_resource st),
       {| operation_says := operation_says s; snapshot_says := rest |})
  end.

Definition cloud : platform :=
  {| unicode := ascii_only;
     now_format := strftime noon;
     credentials := unit;
     client := unit;
     remote := script;
     from_json_keyfile_name := fun _ => Returned tt;
     from_json_keyfile_string := fun _ => Returned tt;
     get_application_default := Returned (Some tt);
     discovery_build := fun _ => Returned tt;
     execute := fun _ => serve |}.

Definition start (s : script) : world cloud :=
  Build_world cloud s [].

Definition ctx : Context :=
  {| config := {[ "gcloud_project" := "my-project" ]} |}.

(** A handle as [create_snapshot] returns it. *)
Definition handle : gmap string string :=
  {[ "snapshot_name" := "pv-data-041126-120000";
     "zone" := "europe-west1-b";
     "operation_name" := "operation-1730721600" ]}.

Definition settings (fmt author_label author_label_key : string)
    : gmap string string :=
  {[ "snapshot_datetime_format" := fmt;
     "snapshot_author_label" := author_label;
     "snapshot_author_label_key" := author_label_key ]}.

Definition volume (fields : gmap string json) (lbls : gmap string string)
    : PersistentVolume :=
  {| obj := JObj {[ "spec" := JObj fields ]};
     labels := lbls;
     annotations := {[ "pv.kubernetes.io/provisioned-by" := "kubernetes.io/gce-pd" ]} |}.

Definition gce_disk (pd : string) : gmap string json :=
  {[ "gcePersistentDisk" := JObj {[ "pdName" := JStr pd ]} ]}.

End Sample.

(** ** Listing, creating, labelling and deleting snapshots *)

(** Modelled from the spec: the record [Snapshot] of
    [backends/abstract.py], with the fields name, created_at and disk. *)
Module Snapshot.
Record t (T : Type) := { name : json; created_at : T; disk : GoogleDiskIdentifier }.
Arguments name {T} _.
Arguments created_at {T} _.
Arguments disk {T} _.
End Snapshot.

(** The requests that change the service, with their JSON body. *)
Inductive mutation :=
| DisksCreateSnapshot (disk : json) (project zone : string) (body : json)
| SnapshotsSetLabels (resource project : string) (body : json)
| SnapshotsDelete (snapshot : json) (project : string).

(** What a call has exchanged with the service. The answer to a list
    request is its [items], when it has any. *)
Inductive exchange :=
| Fetched (rq : request) (resp : outcome json)
| Listed (project filter : string) (resp : outcome (option (list json)))
| Mutated (m : mutation) (resp : outcome json).

(** The rest of the platform: the date parser of [pendulum] and the
    requests of the Compute service other than the two reads. *)
Record service_api (P : platform) := {
  timestamp : Type;
  pendulum_parse : json -> outcome timestamp;
  snapshots_list :
    client P -> string -> string -> remote P
    -> outcome (option (list json)) * remote P;
  mutate : client P -> mutation -> remote P -> outcome json * remote P
}.
Arguments timestamp {P} _.
Arguments pendulum_parse {P} _ _.
Arguments snapshots_list {P} _ _ _ _ _.
Arguments mutate {P} _ _ _ _.

(** Exceptions that only the listing can raise, next to those of [exn]. *)
Inductive raised :=
| Builtin (e : exn)
| ValueError
| AttributeError.

Inductive attempt (A : Type) :=
| Done (a : A)
| Thrown (e : raised).
Arguments Done {A} a.
Arguments Thrown {A} e.

(** [s.split(sep)]. *)
Fixpoint split (sep : ascii) (s : string) : list string :=
  match s with
  | EmptyString => [EmptyString]
  | String c t =>
      if Ascii.eqb c sep then EmptyString :: split sep t
      else match split sep t with
           | x :: rest => String c x :: rest
           | [] => [String c EmptyString]
           end
  end.

(** [xs[-n:]]. *)
Definition lastn {A} (n : nat) (xs : list A) : list A :=
  List.skipn (List.length xs - n) xs.

Fixpoint count_char (c : ascii) (s : string) : nat :=
  match s with
  | EmptyString => 0
  | String d t => (if Ascii.eqb d c then 1 else 0) + count_char c t
  end.

Section Client.
Variable P : platform.
Variable A : service_api P.

Definition parse_timestamp (date_str : json) : result (timestamp A) :=
  from_library (pendulum_parse A date_str).

(** The state the calls of the client run in. *)
Record session := { backend : remote P; exchanges : list exchange }.

Definition fetch (gcloud : client P) (rq : request) : M session json :=
  fun w =>
    let '(resp, s') := execute P gcloud rq (backend w) in
    (from_library resp,
     {| backend := s'; exchanges := exchanges w ++ [Fetched rq resp] |}).

Definition change (gcloud : client P) (m : mutation) : M session json :=
  fun w =>
    let '(resp, s') := mutate A gcloud m (backend w) in
    (from_library resp,
     {| backend := s'; exchanges := exchanges w ++ [Mutated m resp] |}).

(** [_, zone, _, disk = item['sourceDisk'].split('/')[-4:]] *)
Definition source_disk (item : json) : attempt (string * string) :=
  match jgetitem item "sourceDisk" with
  | Raise e => Thrown (Builtin e)
  | Ok (JStr url) =>
      match lastn 4 (split "/" url) with
      | [_; zone; _; disk] => Done (zone, disk)
      | _ => Thrown ValueError
      end
  | Ok _ => Thrown AttributeError
  end.

(** The body of the loop of [load_snapshots]. *)
Definition snapshot_of (item : json) : attempt (Snapshot.t (timestamp A)) :=
  match source_disk item with
  | Thrown e => Thrown e
  | Done (zone, disk) =>
      match
        (name ← jgetitem item "name";
         creationTimestamp ← jgetitem item "creationTimestamp";
         created_at ← parse_timestamp creationTimestamp;
         mret (name, created_at))
      with
      | Raise e => Thrown (Builtin e)
      | Ok (name, created_at) =>
          Done {| Snapshot.name := name;
                  Snapshot.created_at := created_at;
                  Snapshot.disk := {| name := JStr disk; zone := zone |} |}
      end
  end.

Fixpoint collect (items : list json) (snapshots : list (Snapshot.t (timestamp A)))
    : attempt (list (Snapshot.t (timestamp A))) :=
  match items with
  | [] => Done snapshots
  | item :: rest =>
      match snapshot_of item with
      | Thrown e => Thrown e
      | Done s => collect rest (snapshots ++ [s])
      end
  end.

Definition load_snapshots (ctx : Context) (label_filters : odict string)
    : session -> attempt (list (Snapshot.t (timestamp A))) * session :=
  fun w =>
    match
      (gcloud ← get_gcloud P ctx;
       project ← getitem (config ctx) "gcloud_project";
       filter ← snapshot_list_filter_expr label_filters;
       mret (gcloud, project, filter))
    with
    | Raise e => (Thrown (Builtin e), w)
    | Ok (gcloud, project, filter) =>
        let '(resp, s') := snapshots_list A gcloud project filter (backend w) in
        let w' := {| backend := s';
                     exchanges := exchanges w ++ [Listed project filter resp] |} in
        match resp with
        | Failed what => (Thrown (Builtin (LibraryError what)), w')
        | Returned items => (collect (default [] items) [], w')
        end
    end.

Definition create_snapshot (ctx : Context) (disk : GoogleDiskIdentifier)
    (snapshot_name snapshot_description : string)
    : M session (gmap string json) :=
  let request_body :=
    JObj {[ "name" := JStr snapshot_name;
            "description" := JStr snapshot_description ]} in
  gcloud ← lift (get_gcloud P ctx);
  project ← lift (getitem (config ctx) "gcloud_project");
  operation ← change gcloud
    (DisksCreateSnapshot (name disk) project (zone disk) request_body);
  operation_name ← lift (jgetitem operation "name");
  mret {[ "snapshot_name" := JStr snapshot_name;
          "zone" := JStr (zone disk);
          "operation_name" := operation_name ]}.

Definition set_snapshot_labels (ctx : Context)
    (snapshot_identifier : gmap string string) (labels : gmap string json)
    : M session json :=
  gcloud ← lift (get_gcloud P ctx);
  snapshot_name ← lift (getitem snapshot_identifier "snapshot_name");
  project ← lift (getitem (config ctx) "gcloud_project");
  snapshot ← fetch gcloud (SnapshotsGet snapshot_name project);
  labelFingerprint ← lift (jgetitem snapshot "labelFingerprint");
  let body :=
    JObj {[ "labels" := JObj labels;
            "labelFingerprint" := labelFingerprint ]} in
  resource ← lift (getitem snapshot_identifier "snapshot_name");
  project ← lift (getitem (config ctx) "gcloud_project");
  change gcloud (SnapshotsSetLabels resource project body).

Definition delete_snapshot (ctx : Context) (snapshot : Snapshot.t (timestamp A))
    : M session json :=
  gcloud ← lift (get_gcloud P ctx);
  project ← lift (getitem (config ctx) "gcloud_project");
  change gcloud (SnapshotsDelete (Snapshot.name snapshot) project).

End Client.

Arguments backend {P} s.
Arguments exchanges {P} s.

(** ** A project to run the client on *)

Module Fixture.

(** Credentials are called after their source, and a client after its
    credentials. One keyfile exists. *)
Definition keyfile_by_name (keyfile_name : string) : outcome string :=
  if String.eqb keyfile_name "/secrets/key.json"
  then Returned ("file:" ++ keyfile_name)
  else Failed "No such file or directory".

(** The service keeps the label fingerprint of the snapshots and counts
    the requests that changed it. *)
Record store := { fingerprint : string; changes : nat }.

Definition snapshot_resource (snapshot fp : string) : json :=
  JObj {[ "kind" := JStr "compute#snapshot";
          "name" := JStr snapshot;
          "status" := JStr "READY";
          "labelFingerprint" := JStr fp ]}.

Definition read (rq : request) (s : store) : outcome json * store :=
  match rq with
  | ZoneOperationsGet _ _ operation =>
      (Returned (JObj {[ "kind" := JStr "compute#operation";
                         "name" := JStr operation;
                         "status" := JStr "RUNNING" ]}), s)
  | SnapshotsGet snapshot _ => (Returned (snapshot_resource snapshot (fingerprint s)), s)
  end.

Definition created_operation : json :=
  JObj {[ "kind" := JStr "compute#operation";
          "name" := JStr "operation-17";
          "status" := JStr "PENDING" ]}.

Definition write (m : mutation) (s : store) : outcome json * store :=
  match m with
  | DisksCreateSnapshot _ _ _ _ =>
      (Returned created_operation,
       {| fingerprint := fingerprint s; changes := S (changes s) |})
  | SnapshotsSetLabels _ _ body =>
      match jgetitem body "labelFingerprint" with
      | Ok fp =>
          if eq_str fp (fingerprint s)
          then (Returned (JObj {[ "kind" := JStr "compute#operation" ]}),
                {| fingerprint := fingerprint s ++ "'"; changes := S (changes s) |})
          else (Failed "412 conditionNotMet", s)
      | Raise _ => (Failed "400 required", s)
      end
  | SnapshotsDelete _ _ =>
      (Returned (JObj {[ "kind" := JStr "compute#operation" ]}),
       {| fingerprint := fingerprint s; changes := S (changes s) |})
  end.

Definition listed (name created url : string) : json :=
  JObj {[ "name" := JStr name;
          "creationTimestamp" := JStr created;
          "sourceDisk" := JStr url ]}.

Definition items : list json :=
  [ listed "pv-data-031126-120000" "2026-11-03T04:00:00.000-08:00"
      "https://www.googleapis.com/compute/v1/projects/my-project/zones/europe-west1-b/disks/disk-1";
    listed "pv-logs-041126-120000" "2026-11-04T04:00:00.000-08:00"
      "https://www.googleapis.com/compute/v1/projects/my-project/zones/europe-west1-c/disks/disk-2" ].

Definition project : platform :=
  {| unicode := Sample.ascii_only;
     now_format := Sample.strftime Sample.noon;
     credentials := string;
     client := string;
     remote := store;
     from_json_keyfile_name := keyfile_by_name;
     from_json_keyfile_string := fun _ => Returned "inline";
     get_application_default := Returned None;
     discovery_build := fun c => Returned c;
     execute := fun _ => read |}.

(** The same project while the service is down. *)
Definition offline : platform :=
  {| unicode := Sample.ascii_only;
     now_format := Sample.strftime Sample.noon;
     credentials := string;
     client := string;
     remote := store;
     from_json_keyfile_name := keyfile_by_name;
     from_json_keyfile_string := fun _ => Returned "inline";
     get_application_default := Returned None;
     discovery_build := fun c => Returned c;
     execute := fun _ _ s => (Failed "503 Service Unavailable", s) |}.

(** Timestamps are kept as they are written. *)
Definition as_written (j : json) : outcome string :=
  match j with
  | JStr s => Returned s
  | _ => Failed "Parser must be a string"
  end.

(** The service answers a list request with [answer]. *)
Definition api_listing (answer : list json) : service_api project :=
  Build_service_api project string as_written
    (fun _ _ _ s => (Returned (Some answer), s))
    (fun _ => write).

Definition api : service_api project := api_listing items.

Definition offline_api : service_api offline :=
  Build_service_api offline string as_written
    (fun _ _ _ s => (Failed "503 Service Unavailable", s))
    (fun _ _ s => (Failed "503 Service Unavailable", s)).

Definition ctx (keyfile_name : string) : Context :=
  {| config := {[ "gcloud_project" := "my-project";
                  "gcloud_json_keyfile_name" := keyfile_name ]} |}.

Definition fresh : session project :=
  Build_session project {| fingerprint := "42WmSpB8rSM="; changes := 0 |} [].

Definition fresh_offline : session offline :=
  Build_session offline {| fingerprint := "42WmSpB8rSM="; changes := 0 |} [].

Definition disk1 : GoogleDiskIdentifier :=
  {| name := JStr "disk-1"; zone := "europe-west1-b" |}.

End Fixture.

(** ** What the matcher computes *)

Section ReFacts.
Implicit Types (s p q : string) (cls : ascii -> bool).

Lemma str_app_cons c p q : String c p ++ q = String c (p ++ q).
Proof. reflexivity. Qed.

Lemma str_app_empty_r p : p ++ EmptyString = p.
Proof. induction p as [|c p IH]; [done|]. by rewrite str_app_cons, IH. Qed.

Lemma str_app_snoc p x q : (p ++ String x EmptyString) ++ q = p ++ String x q.
Proof. induction p as [|c p IH]; [done|]. by rewrite !str_app_cons, IH. Qed.

Lemma str_length_app p q :
  String.length (p ++ q) = (String.length p + String.length q)%nat.
Proof. induction p as [|c p IH]; [done|]. rewrite str_app_cons. simpl. by rewrite IH. Qed.

Lemma all_in_app cls p q :
  all_in cls (p ++ q) = all_in cls p && all_in cls q.
Proof.
  induction p as [|c p IH]; [done|].
  rewrite str_app_cons. simpl. by rewrite IH, andb_assoc.
Qed.

Lemma ends_with_snoc c p x : ends_with c (p ++ String x EmptyString) = Ascii.eqb x c.
Proof.
  induction p as [|d p IH]; [done|].
  rewrite str_app_cons. simpl. rewrite IH. by destruct p.
Qed.

Lemma snoc_exists c t : exists p x, String c t = p ++ String x EmptyString.
Proof.
  revert c. induction t as [|d t IH]; intros c.
  - by exists EmptyString, c.
  - destruct (IH d) as (p & x & ->). by exists (String c p), x.
Qed.

Lemma rep_true cls lo hi st s k :
  Re.rep cls lo hi st s k = true <->
  exists p q, s = p ++ q /\ (lo <= String.length p <= hi)%nat /\
              all_in cls p = true /\ k (st && is_empty p) q = true.
Proof.
  revert lo st s. induction hi as [|hi IH]; intros lo st s; simpl.
  - rewrite andb_true_iff, Nat.eqb_eq. split.
    + intros [-> Hk]. exists EmptyString, s. simpl. rewrite andb_true_r. repeat split; auto.
    + intros (p & q & -> & [Hlo Hhi] & _ & Hk).
      destruct p; simpl in *; [|lia]. rewrite andb_true_r in Hk. split; [lia|done].
  - rewrite orb_true_iff, andb_true_iff, Nat.eqb_eq. split.
    + intros [H | [-> Hk]].
      * destruct s as [|c t]; [discriminate|].
        apply andb_true_iff in H as [Hc H]. apply IH in H as (p & q & -> & [Hlo Hhi] & Hp & Hk).
        exists (String c p), q. simpl. rewrite Hc, Hp, andb_false_r. simpl in Hk.
        repeat split; auto; lia.
      * exists EmptyString, s. simpl. rewrite andb_true_r. repeat split; auto; lia.
    + intros (p & q & -> & [Hlo Hhi] & Hp & Hk). destruct p as [|c p]; simpl in *.
      * right. rewrite andb_true_r in Hk. split; [lia|done].
      * left. apply andb_true_iff in Hp as [Hc Hp]. rewrite Hc. simpl.
        apply IH. exists p, q. rewrite andb_false_r in Hk. simpl.
        repeat split; auto; lia.
Qed.

Lemma at_end_true q : Re.at_end q = true <-> q = EmptyString \/ q = String newline EmptyString.
Proof.
  destruct q as [|c [|d q]]; simpl.
  - split; auto.
  - rewrite N.eqb_eq. split.
    + intros H. right. f_equal. unfold code in H.
      rewrite <- (ascii_N_embedding c), H. reflexivity.
    + intros [H|H]; [discriminate|]. injection H as ->. reflexivity.
  - split; [discriminate|]. intros [H|H]; discriminate.
Qed.

Lemma chomp_app_newline p : chomp (p ++ String newline EmptyString) = p.
Proof.
  induction p as [|c p IH]; [reflexivity|].
  simpl. rewrite IH. destruct p; reflexivity.
Qed.

Lemma chomp_no_newline cls p :
  cls newline = false -> all_in cls p = true -> chomp p = p.
Proof.
  intros Hn. induction p as [|c p IH]; [reflexivity|]. simpl.
  intros [Hc Hp]%andb_true_iff. destruct p as [|d p].
  - destruct (Ascii.eqb_spec c newline) as [->|]; [congruence|reflexivity].
  - rewrite IH by done. reflexivity.
Qed.

Lemma chomp_split s : exists q, s = chomp s ++ q /\ Re.at_end q = true.
Proof.
  induction s as [|c s IH].
  - exists EmptyString. done.
  - simpl. destruct s as [|d s].
    + destruct (Ascii.eqb_spec c newline) as [->|].
      * exists (String newline EmptyString). done.
      * exists EmptyString. done.
    + destruct IH as (q & Hq & Hend). exists q. split; [|done].
      change (String c (String d s) = String c (chomp (String d s) ++ q)).
      f_equal. exact Hq.
Qed.

(** A match that must end the subject reads the chomped subject. *)
Lemma body_at_end cls p q :
  cls newline = false -> all_in cls p = true -> Re.at_end q = true ->
  chomp (p ++ q) = p.
Proof.
  intros Hn Hp [->| ->]%at_end_true.
  - rewrite str_app_empty_r. eauto using chomp_no_newline.
  - apply chomp_app_newline.
Qed.

Lemma dash_word_newline P : dash_word P newline = false.
Proof. reflexivity. Qed.

Lemma dash_lower_az09_newline : dash_lower_az09 newline = false.
Proof. reflexivity. Qed.

(** [GOOGLE_LABEL_REGEX] accepts the labels of at most 63 dashes and
    word characters, a final newline apart. *)
Lemma label_regex_match P s :
  Re.match_ (GOOGLE_LABEL_REGEX P) s = valid_label P (chomp s).
Proof.
  apply eq_true_iff_eq. unfold Re.match_, GOOGLE_LABEL_REGEX, valid_label.
  cbn [Re.run andb]. rewrite rep_true, andb_true_iff, Nat.leb_le. split.
  - intros (p & q & -> & [_ Hlen] & Hp & Hq). rewrite andb_true_r in Hq.
    rewrite (body_at_end (dash_word P)); auto using dash_word_newline.
  - intros [Hlen Hall]. destruct (chomp_split s) as (q & Hs & Hq).
    exists (chomp s), q. rewrite Hq. repeat split; auto; lia.
Qed.

Lemma lower_az_dash c : lower_az c = true -> dash_lower_az09 c = true.
Proof. unfold dash_lower_az09, lower_az. intros ->. by rewrite orb_true_r. Qed.

Lemma lower_az09_dash c : lower_az09 c = true -> dash_lower_az09 c = true.
Proof. unfold dash_lower_az09, lower_az09. intros H. by rewrite <- orb_assoc, H, orb_true_r. Qed.

Lemma lower_az09_not_dash c : lower_az09 c = true -> Ascii.eqb c "-" = false.
Proof. destruct (Ascii.eqb_spec c "-") as [->|]; [discriminate|done]. Qed.

Lemma dash_lower_az09_cases c :
  dash_lower_az09 c = true -> Ascii.eqb c "-" = false -> lower_az09 c = true.
Proof.
  unfold dash_lower_az09, lower_az09. intros H Hd.
  by rewrite <- orb_assoc, Hd in H.
Qed.

(** [GOOGLE_SNAPSHOT_NAME_REGEX] accepts the valid snapshot names, a
    final newline apart. *)

Lemma name_regex_match s :
  Re.match_ GOOGLE_SNAPSHOT_NAME_REGEX s = valid_snapshot_name (chomp s).
Proof.
  apply eq_true_iff_eq. unfold Re.match_, GOOGLE_SNAPSHOT_NAME_REGEX.
  cbn [Re.run andb]. split.
  - destruct s as [|c t]; [discriminate|].
    intros [Hc H]%andb_true_iff. apply orb_true_iff in H as [H|H].
    + apply rep_true in H as (p & q & -> & [_ Hlen] & Hp & Hq).
      destruct q as [|x v]; [discriminate|].
      apply andb_true_iff in Hq as [Hx Hv]. rewrite andb_true_r in Hv.
      rewrite <- str_app_snoc.
      change (String c ((p ++ String x EmptyString) ++ v))
        with (String c (p ++ String x EmptyString) ++ v).
      rewrite (body_at_end dash_lower_az09 (String c (p ++ String x EmptyString)) v);
        auto using dash_lower_az09_newline.
      * cbn [valid_snapshot_name].
        rewrite Hc, all_in_app, Hp, ends_with_snoc, str_length_app.
        cbn [all_in String.length andb].
        rewrite (lower_az09_dash _ Hx), (lower_az09_not_dash _ Hx).
        cbn [andb negb]. rewrite andb_true_r. apply Nat.leb_le. lia.
      * cbn [all_in]. rewrite all_in_app, Hp, (lower_az_dash _ Hc).
        cbn [all_in andb]. by rewrite (lower_az09_dash _ Hx).
    + rewrite andb_true_r in H.
      change (String c t) with (String c EmptyString ++ t).
      rewrite (body_at_end dash_lower_az09 (String c EmptyString) t);
        auto using dash_lower_az09_newline.
      * cbn [valid_snapshot_name all_in String.length ends_with negb].
        by rewrite Hc.
      * cbn [all_in]. by rewrite (lower_az_dash _ Hc).
  - intros Hv. destruct (chomp_split s) as (q & Hs & Hq).
    destruct (chomp s) as [|c t]; [discriminate|]. rewrite Hs, str_app_cons.
    cbn [valid_snapshot_name] in Hv. apply andb_true_iff in Hv as [Hv Hend].
    apply andb_true_iff in Hv as [Hv Hlen]. apply andb_true_iff in Hv as [Hc Hall].
    rewrite Hc. cbn [andb]. apply orb_true_iff. destruct t as [|d t].
    + right. change (EmptyString ++ q) with q. by rewrite Hq.
    + left. destruct (snoc_exists d t) as (p & x & Hpx). rewrite Hpx in *.
      rewrite ends_with_snoc in Hend. rewrite all_in_app in Hall.
      apply andb_true_iff in Hall as [Hp Hx]. cbn [all_in] in Hx.
      rewrite andb_true_r in Hx.
      rewrite str_length_app in Hlen. cbn [String.length] in Hlen.
      apply Nat.leb_le in Hlen.
      apply rep_true. exists p, (String x q). rewrite str_app_snoc.
      split; [done|]. split; [lia|]. split; [done|].
      rewrite Hq, (dash_lower_az09_cases x); auto. by destruct (Ascii.eqb x "-").
Qed.
End ReFacts.

(** ** The validation of the configuration, step by step *)

Section ValidateFacts.
Variable P : platform.
Implicit Types (config : gmap string string) (f : frame).

Lemma iterate_label_keys order :
  iterate order (glabel_key_keys ∪ glabel_value_keys) =
  if order then ["snapshot_author_label"; "snapshot_author_label_key"]
  else ["snapshot_author_label_key"; "snapshot_author_label"].
Proof. destruct order; vm_compute; reflexivity. Qed.

Lemma islower_first U s :
  islower U s = true -> exists c t, s = String c t.
Proof. destruct s as [|c t]; [discriminate|eauto]. Qed.

Lemma is_glabel_valid_value value : is_glabel_valid P value false = Ok true.
Proof.
  unfold is_glabel_valid, mbind, result_bind, mret, result_ret.
  destruct (Re.match_ (GOOGLE_LABEL_REGEX P) value); cbn [andb]; [|done].
  destruct (islower (unicode P) value) eqn:Hl; [|done].
  apply islower_first in Hl as (c & t & ->). cbn [first_char].
  by rewrite orb_true_r.
Qed.

Lemma is_glabel_valid_key value :
  is_glabel_valid P value true = Ok (valid_label_key P value).
Proof.
  unfold is_glabel_valid, valid_label_key, mbind, result_bind, mret, result_ret.
  destruct (Re.match_ (GOOGLE_LABEL_REGEX P) value); cbn [andb]; [|done].
  destruct (islower (unicode P) value) eqn:Hl; [|done].
  apply islower_first in Hl as (c & t & ->). cbn [first_char negb].
  by rewrite orb_false_r.
Qed.

Lemma check_label_value config f :
  check_label P config "snapshot_author_label_key" f =
  match config !! "snapshot_author_label_key" with
  | Some _ => (Ok tt, f)
  | None => (Raise (KeyError "snapshot_author_label_key"), f)
  end.
Proof.
  unfold check_label, mbind, M_bind, Py.bind, lift, getitem.
  destruct (config !! "snapshot_author_label_key") as [v|]; [|done].
  replace (bool_decide ("snapshot_author_label_key" ∈ glabel_key_keys))
    with false by (vm_compute; reflexivity).
  by rewrite is_glabel_valid_value.
Qed.

Lemma check_label_key config f :
  check_label P config "snapshot_author_label" f =
  match config !! "snapshot_author_label" with
  | Some v =>
      if valid_label_key P v then (Ok tt, f)
      else (Ok tt,
            {| is_valid := Some false;
               log := log f ++ [LabelError "snapshot_author_label" true
                                  (islower (unicode P) v) v] |})
  | None => (Raise (KeyError "snapshot_author_label"), f)
  end.
Proof.
  unfold check_label, mbind, M_bind, Py.bind, lift, getitem.
  destruct (config !! "snapshot_author_label") as [v|]; [|done].
  replace (bool_decide ("snapshot_author_label" ∈ glabel_key_keys))
    with true by (vm_compute; reflexivity).
  rewrite is_glabel_valid_key. by destruct (valid_label_key P v).
Qed.

Lemma validate_config_steps order config fmt :
  config !! "snapshot_datetime_format" = Some fmt ->
  validate_config P order config =
  let '(r, f) :=
    Py.bind (for_each (iterate order (glabel_key_keys ∪ glabel_value_keys))
                      (check_label P config))
            (fun _ => read_is_valid)
            (after_name_rule ("dummy-snapshot-" ++ now_format P fmt)) in
  (r, log f).
Proof.
  intros Hfmt.
  unfold validate_config, validate_config_body, mbind, M_bind, lift, getitem.
  rewrite Hfmt. unfold after_name_rule, Py.bind at 1 2.
  by destruct (Re.match_ GOOGLE_SNAPSHOT_NAME_REGEX _).
Qed.
End ValidateFacts.

Section ValidationShape.
Variable P : platform.
Implicit Types (config : gmap string string) (order : bool) (f : frame).

Lemma validate_config_no_format order config :
  config !! "snapshot_datetime_format" = None ->
  validate_config P order config =
  (Raise (KeyError "snapshot_datetime_format"), []).
Proof.
  intros Hfmt.
  unfold validate_config, validate_config_body, mbind, M_bind, lift, getitem.
  rewrite Hfmt. reflexivity.
Qed.

(** The frame after the label loop when it runs to its end. *)
Lemma label_loop order config f v w :
  config !! "snapshot_author_label" = Some v ->
  config !! "snapshot_author_label_key" = Some w ->
  for_each (iterate order (glabel_key_keys ∪ glabel_value_keys))
           (check_label P config) f =
  (Ok tt, after_label_rule P v f).
Proof.
  intros Hv Hw. rewrite iterate_label_keys.
  destruct order; cbn [for_each]; unfold Py.bind;
    rewrite ?check_label_value, ?Hw, ?check_label_key, ?Hv;
    unfold after_label_rule; destruct (valid_label_key P v);
    by rewrite ?check_label_value, ?Hw.
Qed.

(** The label loop stops at the first field the configuration lacks;
    by then it has at most applied the rule on the key-typed field. *)
Lemma label_loop_raises order config f :
  config !! "snapshot_author_label" = None \/
  config !! "snapshot_author_label_key" = None ->
  exists k f',
    for_each (iterate order (glabel_key_keys ∪ glabel_value_keys))
             (check_label P config) f = (Raise (KeyError k), f') /\
    config !! k = None /\
    (f' = f \/ exists v, config !! "snapshot_author_label" = Some v /\
                         f' = after_label_rule P v f).
Proof.
  intros Hmiss. rewrite iterate_label_keys.
  destruct order; cbn [for_each]; unfold Py.bind.
  - rewrite check_label_key.
    destruct (config !! "snapshot_author_label") as [v|] eqn:Hv.
    + destruct Hmiss as [|Hw]; [done|].
      exists "snapshot_author_label_key", (after_label_rule P v f).
      split; [|split; [done|right; by exists v]].
      unfold after_label_rule.
      by destruct (valid_label_key P v); rewrite check_label_value, Hw.
    + exists "snapshot_author_label", f. auto.
  - rewrite check_label_value.
    destruct (config !! "snapshot_author_label_key") as [w|] eqn:Hw.
    + destruct Hmiss as [Hv|]; [|done].
      exists "snapshot_author_label", f. rewrite check_label_key, Hv. auto.
    + exists "snapshot_author_label_key", f. auto.
Qed.

(** A validation of a configuration that has the three fields. *)
Lemma validation_complete order config fmt v w :
  config !! "snapshot_datetime_format" = Some fmt ->
  config !! "snapshot_author_label" = Some v ->
  config !! "snapshot_author_label_key" = Some w ->
  let f1 := after_label_rule P v
              (after_name_rule ("dummy-snapshot-" ++ now_format P fmt)) in
  validate_config P order config = (fst (read_is_valid f1), log f1).
Proof.
  intros Hfmt Hv Hw. rewrite (validate_config_steps P order config fmt Hfmt).
  unfold Py.bind. by rewrite (label_loop order config _ v w Hv Hw).
Qed.

(** On a configuration that passes the name rule and the rule on the
    key-typed field, [is_valid] is read before any assignment. *)
Lemma validation_unbound_when_valid order config fmt v w :
  config !! "snapshot_datetime_format" = Some fmt ->
  config !! "snapshot_author_label" = Some v ->
  config !! "snapshot_author_label_key" = Some w ->
  Re.match_ GOOGLE_SNAPSHOT_NAME_REGEX ("dummy-snapshot-" ++ now_format P fmt)
  = true ->
  valid_label_key P v = true ->
  validate_config P order config = (Raise (UnboundLocalError "is_valid"), []).
Proof.
  intros Hfmt Hv Hw. rewrite (validation_complete order config fmt v w Hfmt Hv Hw).
  generalize ("dummy-snapshot-" ++ now_format P fmt). intros name Hname Hkey.
  unfold after_label_rule, after_name_rule. by rewrite Hkey, Hname.
Qed.

(** Any validation of a configuration that has a datetime format:
    the log is that of the name rule, followed or not by the violation
    of the key-typed field. *)
Lemma validation_shape order config fmt :
  config !! "snapshot_datetime_format" = Some fmt ->
  let f0 := after_name_rule ("dummy-snapshot-" ++ now_format P fmt) in
  exists r f1,
    validate_config P order config = (r, log f1) /\
    (f1 = f0 \/ exists v, f1 = after_label_rule P v f0) /\
    (r = fst (read_is_valid f1) \/ exists k, r = Raise (KeyError k)).
Proof.
  intros Hfmt f0.
  destruct (config !! "snapshot_author_label") as [v|] eqn:Hv;
    [destruct (config !! "snapshot_author_label_key") as [w|] eqn:Hw|].
  - exists (fst (read_is_valid (after_label_rule P v f0))), (after_label_rule P v f0).
    split; [by apply (validation_complete order config fmt v w)|]. eauto.
  - destruct (label_loop_raises order config f0 (or_intror Hw))
      as (k & f' & Hloop & _ & Hf').
    exists (Raise (KeyError k)), f'.
    rewrite (validate_config_steps P order config fmt Hfmt).
    unfold Py.bind. fold f0. rewrite Hloop. split; [done|]. split; [|eauto].
    destruct Hf' as [->|(v' & _ & ->)]; eauto.
  - destruct (label_loop_raises order config f0 (or_introl Hv))
      as (k & f' & Hloop & _ & Hf').
    exists (Raise (KeyError k)), f'.
    rewrite (validate_config_steps P order config fmt Hfmt).
    unfold Py.bind. fold f0. rewrite Hloop. split; [done|]. split; [|eauto].
    destruct Hf' as [->|(v' & _ & ->)]; eauto.
Qed.

Lemma after_name_rule_valid name :
  is_valid (after_name_rule name) = None /\ log (after_name_rule name) = [] \/
  is_valid (after_name_rule name) = Some false /\
  log (after_name_rule name) = [DatetimeFormatError name].
Proof.
  unfold after_name_rule.
  destruct (Re.match_ GOOGLE_SNAPSHOT_NAME_REGEX name); auto.
Qed.

Lemma after_label_rule_cases v f :
  after_label_rule P v f = f \/
  is_valid (after_label_rule P v f) = Some false /\
  exists lower,
    log (after_label_rule P v f) =
    (log f ++ [LabelError "snapshot_author_label" true lower v])%list.
Proof.
  unfold after_label_rule. destruct (valid_label_key P v); [auto|].
  right. split; [done|]. by eexists.
Qed.

Lemma reported_app key l1 l2 :
  reported key (l1 ++ l2)%list = reported key l1 || reported key l2.
Proof. apply existsb_app. Qed.

Lemma validation_never_true order config :
  fst (validate_config P order config) = Ok false \/
  exists e, fst (validate_config P order config) = Raise e.
Proof.
  destruct (config !! "snapshot_datetime_format") as [fmt|] eqn:Hfmt.
  - destruct (validation_shape order config fmt Hfmt) as (r & f1 & -> & Hf1 & Hr).
    cbn [fst]. destruct Hr as [->|[k ->]]; [|eauto].
    assert (is_valid f1 = None \/ is_valid f1 = Some false) as [H|H].
    { destruct (after_name_rule_valid ("dummy-snapshot-" ++ now_format P fmt))
        as [[H0 _]|[H0 _]];
        destruct Hf1 as [->|[v ->]]; auto;
        destruct (after_label_rule_cases v
                    (after_name_rule ("dummy-snapshot-" ++ now_format P fmt)))
          as [->|[H1 _]]; auto. }
    + right. cbn [read_is_valid fst]. rewrite H. eauto.
    + left. cbn [read_is_valid fst]. by rewrite H.
  - rewrite validate_config_no_format by done. eauto.
Qed.

Lemma validation_log order config :
  reported "snapshot_author_label_key" (snd (validate_config P order config))
  = false.
Proof.
  destruct (config !! "snapshot_datetime_format") as [fmt|] eqn:Hfmt.
  - destruct (validation_shape order config fmt Hfmt) as (r & f1 & -> & Hf1 & _).
    cbn [snd].
    assert (reported "snapshot_author_label_key"
              (log (after_name_rule ("dummy-snapshot-" ++ now_format P fmt)))
            = false) as H0.
    { by destruct (after_name_rule_valid ("dummy-snapshot-" ++ now_format P fmt))
        as [[_ ->]|[_ ->]]. }
    destruct Hf1 as [->|[v ->]]; [done|].
    destruct (after_label_rule_cases v
                (after_name_rule ("dummy-snapshot-" ++ now_format P fmt)))
      as [->|[_ [lower ->]]]; [done|].
    by rewrite reported_app, H0.
  - by rewrite validate_config_no_format.
Qed.

Lemma after_name_rule_reported name :
  reported "snapshot_datetime_format" (log (after_name_rule name))
  = negb (Re.match_ GOOGLE_SNAPSHOT_NAME_REGEX name).
Proof.
  unfold after_name_rule.
  destruct (Re.match_ GOOGLE_SNAPSHOT_NAME_REGEX name); reflexivity.
Qed.

Lemma validation_name_rule order config fmt :
  config !! "snapshot_datetime_format" = Some fmt ->
  reported "snapshot_datetime_format" (snd (validate_config P order config))
  = negb (Re.match_ GOOGLE_SNAPSHOT_NAME_REGEX
            ("dummy-snapshot-" ++ now_format P fmt)).
Proof.
  intros Hfmt. pose proof (validation_shape order config fmt Hfmt) as H.
  cbv zeta in H. revert H.
  generalize ("dummy-snapshot-" ++ now_format P fmt). intros name.
  intros (r & f1 & -> & Hf1 & _). cbn [snd].
  rewrite <- after_name_rule_reported.
  destruct Hf1 as [->|[v ->]]; [reflexivity|].
  destruct (after_label_rule_cases v (after_name_rule name))
    as [->|[_ [lower ->]]]; [reflexivity|].
  rewrite reported_app. cbn [reported existsb event_key].
  replace ("snapshot_author_label" =? "snapshot_datetime_format")%string
    with false by (vm_compute; reflexivity).
  by rewrite !orb_false_r.
Qed.
End ValidationShape.

(** ** The status check, step by step *)

Lemma eq_str_true j s : eq_str j s = true <-> j = JStr s.
Proof.
  destruct j as [|s'|fields]; cbn [eq_str]; [done| |done].
  rewrite String.eqb_eq. split; [by intros ->|by intros [= ->]].
Qed.

Lemma eq_str_false j s : eq_str j s = false <-> j <> JStr s.
Proof.
  rewrite <- eq_str_true. by destruct (eq_str j s).
Qed.

Lemma jgetitem_raises j key e :
  jgetitem j key = Raise e -> e = KeyError key \/ e = TypeError.
Proof.
  destruct j as [| |fields]; cbn [jgetitem]; try (intros [= <-]; auto).
  unfold getitem. destruct (fields !! key); [done|]. intros [= <-]. auto.
Qed.

Section PollFacts.
Variable P : platform.
Variables (ctx : Context) (handle : gmap string string).
Variables (gcloud : client P) (project zone operation_name snapshot_name : string).
Hypothesis client_built : get_gcloud P ctx = Ok gcloud.
Hypothesis project_set : config ctx !! "gcloud_project" = Some project.
Hypothesis handle_zone : handle !! "zone" = Some zone.
Hypothesis handle_operation : handle !! "operation_name" = Some operation_name.
Hypothesis handle_snapshot : handle !! "snapshot_name" = Some snapshot_name.

Local Abbreviation operation_read :=
  (ZoneOperationsGet project zone operation_name).
Local Abbreviation snapshot_read := (SnapshotsGet snapshot_name project).

(** The two phases of a status check. *)
Lemma poll_steps (w : world P) :
  get_snapshot_status P ctx handle w =
  let o1 := execute P gcloud operation_read (service w) in
  let w1 := Build_world P (snd o1) (trace w ++ [(operation_read, fst o1)]) in
  match operation_status P gcloud project zone operation_name w with
  | Raise e => (Raise e, w1)
  | Ok st =>
      if eq_str st "DONE" then
        let o2 := execute P gcloud snapshot_read (snd o1) in
        (verdict (snapshot_status P gcloud project zone operation_name
                    snapshot_name w),
         Build_world P (snd o2)
           ((trace w ++ [(operation_read, fst o1)]) ++ [(snapshot_read, fst o2)]))
      else (Ok PENDING, w1)
  end.
Proof.
  unfold get_snapshot_status, operation_status, snapshot_status, verdict,
    mbind, M_bind, Py.bind, lift, getitem, send, mret, M_ret, Py.ret.
  rewrite client_built, project_set, handle_zone, handle_operation.
  destruct (execute P gcloud operation_read (service w)) as [o1 s1].
  cbn [fst snd service trace].
  destruct (from_library o1) as [op|e]; [|done].
  destruct (jgetitem op "status") as [st|e]; [|done].
  destruct (eq_str st "DONE"); cbn [negb]; [|reflexivity].
  cbn [service trace]. rewrite handle_snapshot.
  destruct (execute P gcloud snapshot_read s1) as [o2 s2].
  cbn [fst snd service trace].
  destruct (from_library o2) as [snap|e]; [|done].
  destruct (jgetitem snap "status") as [st2|e]; [|done].
  unfold Py.raise.
  destruct (eq_str st2 "FAILED"); [done|].
  by destruct (eq_str st2 "READY").
Qed.



Lemma operation_reads_app t1 t2 :
  operation_reads (t1 ++ t2) = (operation_reads t1 + operation_reads t2)%nat.
Proof. unfold operation_reads. by rewrite List.filter_app, List.length_app. Qed.

Lemma snapshot_reads_app t1 t2 :
  snapshot_reads (t1 ++ t2) = (snapshot_reads t1 + snapshot_reads t2)%nat.
Proof. unfold snapshot_reads. by rewrite List.filter_app, List.length_app. Qed.

End PollFacts.

(** ** The status check: C1 to C4 *)

Section StatusCheck.
Variable P : platform.
Variables (ctx : Context) (handle : gmap string string).
Variables (gcloud : client P) (project zone operation_name snapshot_name : string).
Hypothesis client_built : get_gcloud P ctx = Ok gcloud.
Hypothesis project_set : config ctx !! "gcloud_project" = Some project.
Hypothesis handle_zone : handle !! "zone" = Some zone.
Hypothesis handle_operation : handle !! "operation_name" = Some operation_name.
Hypothesis handle_snapshot : handle !! "snapshot_name" = Some snapshot_name.

Local Abbreviation poll := (get_snapshot_status P ctx handle).
Local Abbreviation op_status :=
  (operation_status P gcloud project zone operation_name).
Local Abbreviation snap_status :=
  (snapshot_status P gcloud project zone operation_name snapshot_name).


(** C1. A status check whose operation read reports a status other
    than DONE returns PENDING, and its only request is that operation
    read: the trace grows by it alone and gains no snapshot read. *)
Theorem poll_pending_without_snapshot_read (w : world P) (status : json) :
  op_status w = Ok status ->
  status <> JStr "DONE" ->
  fst (poll w) = Ok PENDING /\
  trace (snd (poll w)) =
    (trace w ++
     [(ZoneOperationsGet project zone operation_name,
       fst (execute P gcloud
              (ZoneOperationsGet project zone operation_name) (service w)))])%list /\
  snapshot_reads (trace (snd (poll w))) = snapshot_reads (trace w).
Proof.
  intros Hop Hnot%eq_str_false. revert Hop.
  unfold operation_status, get_snapshot_status,
    mbind, M_bind, Py.bind, lift, getitem, send, mret, M_ret, Py.ret.
  rewrite client_built, project_set, handle_zone, handle_operation.
  destruct (execute P gcloud _ (service w)) as [o1 s1]. cbn [fst snd].
  destruct (from_library o1) as [op|e]; [|done]. intros ->.
  rewrite Hnot. cbn [negb fst snd trace]. repeat split.
  rewrite snapshot_reads_app. cbn. lia.
Qed.



End StatusCheck.

Section OperationReads.
Variable P : platform.
Variables (ctx : Context) (handle : gmap string string).

Local Abbreviation poll := (get_snapshot_status P ctx handle).

Local Ltac unfold_poll :=
  unfold get_snapshot_status, mbind, M_bind, Py.bind, lift, getitem, send,
    mret, M_ret, Py.ret, Py.raise.

(** A status check that can start sends the operation read first, and
    after it nothing but the read of the snapshot the handle names. *)
Lemma poll_started (gcloud : client P)
    (project zone operation_name : string) (w : world P) :
  get_gcloud P ctx = Ok gcloud ->
  config ctx !! "gcloud_project" = Some project ->
  handle !! "zone" = Some zone ->
  handle !! "operation_name" = Some operation_name ->
  exists rest,
    trace (snd (poll w)) =
      (trace w ++
       (ZoneOperationsGet project zone operation_name,
        fst (execute P gcloud
               (ZoneOperationsGet project zone operation_name) (service w)))
       :: rest)%list /\
    (rest = [] \/
     exists snapshot_name answer,
       handle !! "snapshot_name" = Some snapshot_name /\
       rest = [(SnapshotsGet snapshot_name project, answer)]).
Proof.
  intros Hclient Hproject Hzone Hoperation. unfold_poll.
  rewrite Hclient, Hproject, Hzone, Hoperation.
  destruct (execute P gcloud _ (service w)) as [o1 s1]. cbn [fst].
  destruct (from_library o1) as [op|e]; [|exists []; auto].
  destruct (jgetitem op "status") as [st|e]; [|exists []; auto].
  destruct (eq_str st "DONE"); cbn [negb]; [|exists []; auto].
  destruct (handle !! "snapshot_name") as [snapshot_name|]; [|exists []; auto].
  cbn [service trace].
  destruct (execute P gcloud _ s1) as [o2 s2].
  exists [(SnapshotsGet snapshot_name project, o2)]. split; [|by eauto].
  destruct (from_library o2) as [snap|e];
    [destruct (jgetitem snap "status") as [st2|e];
     [destruct (eq_str st2 "FAILED"); [|destruct (eq_str st2 "READY")]|]|];
    cbn [snd trace negb]; by rewrite <- app_assoc.
Qed.

(** A status check that cannot start sends nothing and raises. *)
Lemma poll_not_started (w : world P) :
  cannot_start P ctx handle ->
  snd (poll w) = w /\ exists e, fst (poll w) = Raise e.
Proof.
  unfold cannot_start, get_snapshot_status, mbind, M_bind, Py.bind, lift, getitem.
  destruct (get_gcloud P ctx) as [gcloud|e]; [|by eauto].
  destruct (config ctx !! "gcloud_project") as [project|]; [|by eauto].
  destruct (handle !! "zone") as [zone|]; [|by eauto].
  destruct (handle !! "operation_name") as [operation_name|]; [|by eauto].
  intros [[e [=]]|[[=]|[[=]|[=]]]].
Qed.

Lemma poll_one_operation_read (gcloud : client P)
    (project zone operation_name : string) (w : world P) :
  get_gcloud P ctx = Ok gcloud ->
  config ctx !! "gcloud_project" = Some project ->
  handle !! "zone" = Some zone ->
  handle !! "operation_name" = Some operation_name ->
  operation_reads (trace (snd (poll w))) = S (operation_reads (trace w)).
Proof.
  intros Hclient Hproject Hzone Hoperation.
  destruct (poll_started gcloud project zone operation_name w
              Hclient Hproject Hzone Hoperation) as (rest & -> & Hrest).
  change (?x :: rest) with ([x] ++ rest)%list.
  rewrite !operation_reads_app.
  destruct Hrest as [->|(snapshot_name & answer & _ & ->)]; cbn; lia.
Qed.

Lemma polls_operation_reads (gcloud : client P)
    (project zone operation_name : string) (n : nat) (w : world P) :
  get_gcloud P ctx = Ok gcloud ->
  config ctx !! "gcloud_project" = Some project ->
  handle !! "zone" = Some zone ->
  handle !! "operation_name" = Some operation_name ->
  operation_reads (trace (snd (polls P ctx handle n w)))
  = (operation_reads (trace w) + n)%nat.
Proof.
  intros Hclient Hproject Hzone Hoperation.
  revert w. induction n as [|n IH]; intros w; cbn [polls].
  - cbn [snd]. lia.
  - pose proof (poll_one_operation_read gcloud project zone operation_name w
                  Hclient Hproject Hzone Hoperation) as H1.
    destruct (get_snapshot_status P ctx handle w) as [r w1].
    specialize (IH w1). destruct (polls P ctx handle n w1) as [rs w2].
    cbn [snd] in *. lia.
Qed.

(** With the operation DONE and no snapshot name in the handle, the
    check stops at the missing key. *)
Lemma poll_done_without_snapshot_name (gcloud : client P)
    (project zone operation_name : string) (w : world P) :
  get_gcloud P ctx = Ok gcloud ->
  config ctx !! "gcloud_project" = Some project ->
  handle !! "zone" = Some zone ->
  handle !! "operation_name" = Some operation_name ->
  handle !! "snapshot_name" = None ->
  operation_status P gcloud project zone operation_name w = Ok (JStr "DONE") ->
  fst (poll w) = Raise (KeyError "snapshot_name").
Proof.
  intros Hclient Hproject Hzone Hoperation Hsnapshot.
  unfold operation_status. unfold_poll.
  rewrite Hclient, Hproject, Hzone, Hoperation, Hsnapshot.
  destruct (execute P gcloud _ (service w)) as [o1 s1]. cbn [fst].
  destruct (from_library o1) as [op|e]; [|done]. by intros ->.
Qed.

(** C4 (amended). Nothing is remembered between status checks: each one
    starts again with the operation read. For every state of the service
    and every trace of earlier checks, a status check either cannot start
    (no client, no project in the configuration, or a handle without its
    zone or its operation name), and then it sends nothing and raises; or
    its first request is the read of the operation of the handle, followed
    by nothing or by one read of the snapshot of the handle. So, when
    checks can start, [n] of them make [n] operation reads. Within a check
    whose operation read reports DONE, the result is the verdict on the
    snapshot resource alone when the handle has its snapshot name, and the
    error of the missing key when it has not. *)
Theorem polls_read_operation_each_time :
  (forall w : world P,
     (cannot_start P ctx handle /\ snd (poll w) = w /\ exists e, fst (poll w) = Raise e) \/
     exists gcloud project zone operation_name rest,
       get_gcloud P ctx = Ok gcloud /\
       config ctx !! "gcloud_project" = Some project /\
       handle !! "zone" = Some zone /\
       handle !! "operation_name" = Some operation_name /\
       trace (snd (poll w)) =
         (trace w ++
          (ZoneOperationsGet project zone operation_name,
           fst (execute P gcloud
                  (ZoneOperationsGet project zone operation_name) (service w)))
          :: rest)%list /\
       (rest = [] \/
        exists snapshot_name answer,
          handle !! "snapshot_name" = Some snapshot_name /\
          rest = [(SnapshotsGet snapshot_name project, answer)])) /\
  (forall gcloud project zone operation_name,
     get_gcloud P ctx = Ok gcloud ->
     config ctx !! "gcloud_project" = Some project ->
     handle !! "zone" = Some zone ->
     handle !! "operation_name" = Some operation_name ->
     (forall n w,
        operation_reads (trace (snd (polls P ctx handle n w)))
        = (operation_reads (trace w) + n)%nat) /\
     (forall w,
        operation_status P gcloud project zone operation_name w
        = Ok (JStr "DONE") ->
        match handle !! "snapshot_name" with
        | Some snapshot_name =>
            fst (poll w)
            = verdict (snapshot_status P gcloud project zone operation_name
                         snapshot_name w)
        | None => fst (poll w) = Raise (KeyError "snapshot_name")
        end)).
Proof.
  split.
  - intros w.
    destruct (get_gcloud P ctx) as [gcloud|e] eqn:Hclient;
      [|left; split; [|apply poll_not_started]; left; eauto].
    destruct (config ctx !! "gcloud_project") as [project|] eqn:Hproject;
      [|left; split; [|apply poll_not_started]; right; left;
        by rewrite Hproject].
    destruct (handle !! "zone") as [zone|] eqn:Hzone;
      [|left; split; [|apply poll_not_started]; right; right; left;
        by rewrite Hzone].
    destruct (handle !! "operation_name") as [operation_name|] eqn:Hoperation;
      [|left; split; [|apply poll_not_started]; right; right; right;
        by rewrite Hoperation].
    right. exists gcloud, project, zone, operation_name.
    destruct (poll_started gcloud project zone operation_name w)
      as (rest & Htrace & Hrest); try done.
    exists rest. by repeat split.
  - intros gcloud project zone operation_name Hclient Hproject Hzone Hoperation.
    split.
    + intros n w.
      by apply (polls_operation_reads gcloud project zone operation_name).
    + intros w Hdone.
      destruct (handle !! "snapshot_name") as [snapshot_name|] eqn:Hsnapshot.
      * rewrite (poll_steps P ctx handle gcloud project zone operation_name
                   snapshot_name Hclient Hproject Hzone Hoperation Hsnapshot w).
        cbv zeta. by rewrite Hdone.
      * by apply (poll_done_without_snapshot_name gcloud project zone
                    operation_name).
Qed.
End OperationReads.


Import Sample.

(** Requests answered RUNNING for the operation. *)
Lemma poll_pending_without_snapshot_read_witness :
  fst (get_snapshot_status cloud ctx handle
         (start {| operation_says := ["RUNNING"]; snapshot_says := ["CREATING"] |}))
  = Ok PENDING.
Proof.
  refine (proj1 (poll_pending_without_snapshot_read cloud ctx handle tt
                   "my-project" "europe-west1-b" "operation-1730721600"
                   _ _ _ _ _ (JStr "RUNNING") _ _));
    try (vm_compute; reflexivity).
  discriminate.
Defined.



(** C4, as stated, fails: with the operation DONE and the snapshot still
    UPLOADING, the first check returns PENDING, and the check that follows
    reads the operation again. *)
Lemma polls_read_operation_after_done :
  fst (polls cloud ctx handle 2
         (start {| operation_says := ["DONE"];
                   snapshot_says := ["UPLOADING"; "READY"] |}))
  = [Ok PENDING; Ok COMPLETE] /\
  operation_read_after_done
    (trace (snd (polls cloud ctx handle 2
                   (start {| operation_says := ["DONE"];
                             snapshot_says := ["UPLOADING"; "READY"] |}))))
  = true.
Proof. split; vm_compute; reflexivity. Qed.

Lemma polls_read_operation_each_time_witness :
  operation_reads
    (trace (snd (polls cloud ctx handle 2
                   (start {| operation_says := ["DONE"];
                             snapshot_says := ["UPLOADING"; "READY"] |}))))
  = 2%nat.
Proof.
  refine (proj1 (proj2 (polls_read_operation_each_time cloud ctx handle) tt
                   "my-project" "europe-west1-b" "operation-1730721600"
                   _ _ _ _) 2%nat _);
    vm_compute; reflexivity.
Defined.

(** ** The validation of the configuration: C5 to C7 *)

Lemma chomp_app p q : q <> EmptyString -> chomp (p ++ q) = p ++ chomp q.
Proof.
  intros Hq. induction p as [|c p IH]; [reflexivity|].
  rewrite !str_app_cons. cbn [chomp]. rewrite IH.
  destruct (p ++ q) eqn:Hpq; [|reflexivity].
  destruct p; [done|discriminate].
Qed.

Lemma chomp_cons c t :
  c <> newline -> exists t', chomp (String c t) = String c t'.
Proof.
  intros Hc. cbn [chomp]. destruct t; [|eauto].
  destruct (Ascii.eqb_spec c newline); [done|eauto].
Qed.

Lemma upper_not_name_char c : ascii_upper c = true -> dash_lower_az09 c = false.
Proof.
  unfold ascii_upper, dash_lower_az09, between.
  intros [H1 H2]%andb_true_iff.
  apply N.leb_le in H1, H2.
  change (code "A") with 65%N in H1. change (code "Z") with 90%N in H2.
  change (code "a") with 97%N. change (code "z") with 122%N.
  change (code "0") with 48%N. change (code "9") with 57%N.
  destruct (Ascii.eqb_spec c "-") as [->|_]; [vm_compute in H1; done|].
  destruct (N.leb_spec 97 (code c)); [lia|].
  destruct (N.leb_spec (code c) 57); [|by rewrite andb_false_r].
  destruct (N.leb_spec 48 (code c)); [lia|done].
Qed.



(** C5 (validation of a valid configuration). [validate_config] never
    returns true: it returns false or raises. On the configuration that
    passes every rule (the default datetime format, the label key
    created-by, the label value k8s-snapshots) it raises
    [UnboundLocalError], [is_valid] having never been assigned. *)
Theorem validate_config_unbound_on_valid_config :
  (forall P order config,
     fst (validate_config P order config) = Ok false \/
     exists e, fst (validate_config P order config) = Raise e) /\
  Re.match_ GOOGLE_SNAPSHOT_NAME_REGEX
    ("dummy-snapshot-" ++ now_format Sample.cloud "%d%m%y-%H%M%S") = true /\
  valid_label_key Sample.cloud "created-by" = true /\
  Re.match_ (GOOGLE_LABEL_REGEX Sample.cloud) "k8s-snapshots" = true /\
  validate_config Sample.cloud true
    (Sample.settings "%d%m%y-%H%M%S" "created-by" "k8s-snapshots")
  = (Raise (UnboundLocalError "is_valid"), []) /\
  validate_config Sample.cloud false
    (Sample.settings "%d%m%y-%H%M%S" "created-by" "k8s-snapshots")
  = (Raise (UnboundLocalError "is_valid"), []).
Proof.
  split; [apply validation_never_true|].
  repeat split; vm_compute; reflexivity.
Qed.

(** C6 (the rule on the value-typed field). No validation reports a
    violation for [snapshot_author_label_key]. With the label value
    [k8s snapshots!], which the label expression rejects, and the label
    key [Created-By], it returns false and reports the key-typed
    field alone. *)
Theorem value_label_never_reported :
  (forall P order config,
     reported "snapshot_author_label_key" (snd (validate_config P order config))
     = false) /\
  Re.match_ (GOOGLE_LABEL_REGEX Sample.cloud) "k8s snapshots!" = false /\
  validate_config Sample.cloud true
    (Sample.settings "%d%m%y-%H%M%S" "Created-By" "k8s snapshots!")
  = (Ok false, [LabelError "snapshot_author_label" true false "Created-By"]) /\
  validate_config Sample.cloud false
    (Sample.settings "%d%m%y-%H%M%S" "Created-By" "k8s snapshots!")
  = (Ok false, [LabelError "snapshot_author_label" true false "Created-By"]) /\
  validate_config Sample.cloud true
    (Sample.settings "%d%m%y-%H%M%S" "created-by" "k8s snapshots!")
  = (Raise (UnboundLocalError "is_valid"), []).
Proof.
  split; [apply validation_log|].
  repeat split; vm_compute; reflexivity.
Qed.




(** ** The disk identifier and the list filter: C8 to C10 *)

Lemma get_disk_identifier_steps (volume : PersistentVolume) :
  get_disk_identifier volume =
  match pd_name volume with
  | Raise e => Raise e
  | Ok gce_disk =>
      match zone_label volume with
      | None | Some EmptyString =>
          Raise (UnsupportedVolume "cannot find the zone of the disk")
      | Some z => Ok {| name := gce_disk; zone := z |}
      end
  end.
Proof.
  unfold get_disk_identifier, pd_name, zone_label, mbind, result_bind.
  destruct (jgetitem (obj volume) "spec") as [spec|e]; [|done].
  destruct (jgetitem spec "gcePersistentDisk") as [pd|e]; [|done].
  by destruct (jgetitem pd "pdName").
Qed.

(** C8, as stated, fails in both directions: a volume whose zone label
    is present and empty is refused as unsupported, and a volume without
    zone label and without disk name raises [KeyError]. *)
Lemma get_disk_identifier_empty_zone_label :
  zone_label (Sample.volume (Sample.gce_disk "disk-1")
                {[ "failure-domain.beta.kubernetes.io/zone" := EmptyString ]})
  = Some EmptyString /\
  get_disk_identifier
    (Sample.volume (Sample.gce_disk "disk-1")
       {[ "failure-domain.beta.kubernetes.io/zone" := EmptyString ]})
  = Raise (UnsupportedVolume "cannot find the zone of the disk") /\
  zone_label (Sample.volume ∅ ∅) = None /\
  get_disk_identifier (Sample.volume ∅ ∅) = Raise (KeyError "gcePersistentDisk").
Proof. repeat split; vm_compute; reflexivity. Qed.

Lemma pd_name_raises (volume : PersistentVolume) (e : exn) :
  pd_name volume = Raise e ->
  e = KeyError "spec" \/ e = KeyError "gcePersistentDisk" \/
  e = KeyError "pdName" \/ e = TypeError.
Proof.
  unfold pd_name, mbind, result_bind.
  destruct (jgetitem (obj volume) "spec") as [spec|e1] eqn:H1.
  - destruct (jgetitem spec "gcePersistentDisk") as [pd|e2] eqn:H2.
    + intros [-> | ->]%jgetitem_raises; auto.
    + intros [= <-]. apply jgetitem_raises in H2 as [-> | ->]; auto.
  - intros [= <-]. apply jgetitem_raises in H1 as [-> | ->]; auto.
Qed.

(** C8 (amended). [get_disk_identifier] reads the disk name first: on a
    volume where that lookup fails it raises the error of the lookup, a
    [KeyError] or a [TypeError] and never [UnsupportedVolume], whatever
    the zone label. On a volume that has the disk name it raises
    [UnsupportedVolume] exactly when the zone label is absent or empty,
    and returns the identifier made of the disk name and the zone label
    when that label is present and not empty. So, over all volumes,
    [UnsupportedVolume] is raised exactly when the disk name can be read
    and the zone label is absent or empty. *)
Theorem get_disk_identifier_zone_label (volume : PersistentVolume) :
  (forall e, pd_name volume = Raise e ->
     get_disk_identifier volume = Raise e /\
     (e = KeyError "spec" \/ e = KeyError "gcePersistentDisk" \/
      e = KeyError "pdName" \/ e = TypeError)) /\
  (forall gce_disk, pd_name volume = Ok gce_disk ->
     ((exists msg, get_disk_identifier volume = Raise (UnsupportedVolume msg)) <->
      zone_label volume = None \/ zone_label volume = Some EmptyString) /\
     (forall z, zone_label volume = Some z -> z <> EmptyString ->
                get_disk_identifier volume = Ok {| name := gce_disk; zone := z |})) /\
  ((exists msg, get_disk_identifier volume = Raise (UnsupportedVolume msg)) <->
   (exists gce_disk, pd_name volume = Ok gce_disk) /\
   (zone_label volume = None \/ zone_label volume = Some EmptyString)).
Proof.
  rewrite get_disk_identifier_steps. split; [|split].
  - intros e Hpd. rewrite Hpd. split; [done|]. by apply (pd_name_raises volume).
  - intros gce_disk Hpd. rewrite Hpd. split.
    + destruct (zone_label volume) as [[|c z]|]; split; eauto.
      * intros [msg [=]].
      * intros [|]; discriminate.
    + intros z -> Hz. by destruct z.
  - destruct (pd_name volume) as [gce_disk|e] eqn:Hpd.
    + destruct (zone_label volume) as [[|c z]|]; split; eauto.
      * intros [msg [=]].
      * intros [_ [|]]; discriminate.
    + split.
      * intros [msg [= ->]].
        by destruct (pd_name_raises volume _ Hpd) as [|[|[|]]].
      * intros [[gce_disk [=]] _].
Qed.

Lemma get_disk_identifier_zone_label_witness :
  get_disk_identifier
    (Sample.volume (Sample.gce_disk "disk-1")
       {[ "failure-domain.beta.kubernetes.io/zone" := "europe-west1-b" ]})
  = Ok {| name := JStr "disk-1"; zone := "europe-west1-b" |}.
Proof.
  refine (proj2 (proj1 (proj2 (get_disk_identifier_zone_label
                   (Sample.volume (Sample.gce_disk "disk-1")
                      {[ "failure-domain.beta.kubernetes.io/zone" := "europe-west1-b" ]})))
                   (JStr "disk-1") _) "europe-west1-b" _ _).
  - vm_compute; reflexivity.
  - vm_compute; reflexivity.
  - discriminate.
Defined.

(** C9. On a filter map of one pair the expression is
    [labels.<key> eq <value>]; on [{"env": "prod"}] it is
    [labels.env eq prod]. *)
Theorem snapshot_list_filter_expr_single :
  (forall key value : string,
     snapshot_list_filter_expr [(key, value)]
     = Ok ("labels." ++ key ++ " eq " ++ value)) /\
  snapshot_list_filter_expr [("env", "prod")] = Ok "labels.env eq prod".
Proof.
  split; [|reflexivity]. intros key value.
  unfold snapshot_list_filter_expr, mbind, result_bind.
  cbn [keys map fst first ogetitem].
  by rewrite String.eqb_refl.
Qed.

(** C10. On the empty filter map the builder raises [IndexError]; on a
    map that has a pair it returns an expression. *)
Theorem snapshot_list_filter_expr_empty :
  snapshot_list_filter_expr [] = Raise IndexError /\
  (forall (key value : string) (rest : odict string),
     exists expr, snapshot_list_filter_expr ((key, value) :: rest) = Ok expr).
Proof.
  split; [reflexivity|]. intros key value rest.
  unfold snapshot_list_filter_expr, mbind, result_bind.
  cbn [keys map fst first ogetitem].
  rewrite String.eqb_refl. eauto.
Qed.

(** ** Further properties of the validation *)

Section ValidationMore.
Variable P : platform.
Implicit Types (config : gmap string string) (order : bool).

Lemma after_name_rule_no_label name :
  reported "snapshot_author_label" (log (after_name_rule name)) = false.
Proof.
  unfold after_name_rule.
  destruct (Re.match_ GOOGLE_SNAPSHOT_NAME_REGEX name); reflexivity.
Qed.

Lemma key_label_reported order config fmt v w :
  config !! "snapshot_datetime_format" = Some fmt ->
  config !! "snapshot_author_label" = Some v ->
  config !! "snapshot_author_label_key" = Some w ->
  reported "snapshot_author_label" (snd (validate_config P order config))
  = negb (valid_label_key P v).
Proof.
  intros Hfmt Hv Hw.
  rewrite (validation_complete P order config fmt v w Hfmt Hv Hw). cbv zeta.
  generalize ("dummy-snapshot-" ++ now_format P fmt). intros name. cbn [snd].
  unfold after_label_rule. destruct (valid_label_key P v); cbn [negb].
  - apply after_name_rule_no_label.
  - cbn [log]. rewrite reported_app, after_name_rule_no_label.
    vm_compute. reflexivity.
Qed.

(** X1. On a configuration that has the three fields, the key-typed
    field [snapshot_author_label] is reported exactly when its value
    fails one of: at most 63 characters, each a dash or a word character
    (a final newline apart); [islower()]; a letter as first character. *)
Theorem key_label_rule order config fmt v w :
  config !! "snapshot_datetime_format" = Some fmt ->
  config !! "snapshot_author_label" = Some v ->
  config !! "snapshot_author_label_key" = Some w ->
  reported "snapshot_author_label" (snd (validate_config P order config))
  = negb (valid_label P (chomp v)
          && islower (unicode P) v
          && match v with
             | String c _ => isalpha (unicode P) c
             | EmptyString => false
             end).
Proof.
  intros Hfmt Hv Hw. rewrite (key_label_reported order config fmt v w Hfmt Hv Hw).
  unfold valid_label_key. by rewrite label_regex_match.
Qed.

(** X2. With the three fields present the outcome does not depend on the
    order of the label loop: the log is the violation of the name rule,
    if any, followed by the violation of the key-typed field, if any; the
    call returns false when that log is not empty and raises
    [UnboundLocalError] when it is. *)
Theorem validation_outcome order config fmt v w :
  config !! "snapshot_datetime_format" = Some fmt ->
  config !! "snapshot_author_label" = Some v ->
  config !! "snapshot_author_label_key" = Some w ->
  validate_config P order config =
  let name := "dummy-snapshot-" ++ now_format P fmt in
  let violations :=
    ((if Re.match_ GOOGLE_SNAPSHOT_NAME_REGEX name then []
      else [DatetimeFormatError name]) ++
     (if valid_label_key P v then []
      else [LabelError "snapshot_author_label" true
              (islower (unicode P) v) v]))%list in
  (match violations with
   | [] => Raise (UnboundLocalError "is_valid")
   | _ :: _ => Ok false
   end, violations).
Proof.
  intros Hfmt Hv Hw.
  rewrite (validation_complete P order config fmt v w Hfmt Hv Hw). cbv zeta.
  generalize ("dummy-snapshot-" ++ now_format P fmt). intros name.
  unfold after_label_rule, after_name_rule.
  destruct (valid_label_key P v);
    destruct (Re.match_ GOOGLE_SNAPSHOT_NAME_REGEX name); reflexivity.
Qed.

(** X3. Whatever the configuration, [validate_config] returns false, or
    raises [UnboundLocalError], or raises [KeyError] for a field the
    configuration lacks; in particular [value[0]] never raises
    [IndexError], an empty label included. *)
Theorem validate_config_raises_only order config :
  fst (validate_config P order config) = Ok false \/
  fst (validate_config P order config) = Raise (UnboundLocalError "is_valid") \/
  exists k, config !! k = None /\
            fst (validate_config P order config) = Raise (KeyError k).
Proof.
  destruct (config !! "snapshot_datetime_format") as [fmt|] eqn:Hfmt.
  - destruct (config !! "snapshot_author_label") as [v|] eqn:Hv;
      [destruct (config !! "snapshot_author_label_key") as [w|] eqn:Hw|].
    + rewrite (validation_complete P order config fmt v w Hfmt Hv Hw). cbv zeta.
      generalize ("dummy-snapshot-" ++ now_format P fmt). intros name.
      unfold after_label_rule, after_name_rule.
      destruct (valid_label_key P v);
        destruct (Re.match_ GOOGLE_SNAPSHOT_NAME_REGEX name); cbn; auto.
    + right; right. rewrite (validate_config_steps P order config fmt Hfmt).
      generalize (after_name_rule ("dummy-snapshot-" ++ now_format P fmt)).
      intros f0.
      destruct (label_loop_raises P order config f0 (or_intror Hw))
        as (k & f' & Hloop & Hk & _).
      exists k. unfold Py.bind. by rewrite Hloop.
    + right; right. rewrite (validate_config_steps P order config fmt Hfmt).
      generalize (after_name_rule ("dummy-snapshot-" ++ now_format P fmt)).
      intros f0.
      destruct (label_loop_raises P order config f0 (or_introl Hv))
        as (k & f' & Hloop & Hk & _).
      exists k. unfold Py.bind. by rewrite Hloop.
  - right; right. exists "snapshot_datetime_format".
    by rewrite validate_config_no_format.
Qed.
End ValidationMore.

Lemma key_label_rule_witness :
  reported "snapshot_author_label"
    (snd (validate_config Sample.cloud true
            (Sample.settings "%d%m%y-%H%M%S" "Created-By" "k8s-snapshots")))
  = negb (valid_label Sample.cloud (chomp "Created-By")
          && islower (unicode Sample.cloud) "Created-By"
          && isalpha (unicode Sample.cloud) "C").
Proof.
  refine (key_label_rule Sample.cloud true
            (Sample.settings "%d%m%y-%H%M%S" "Created-By" "k8s-snapshots")
            "%d%m%y-%H%M%S" "Created-By" "k8s-snapshots" _ _ _);
    vm_compute; reflexivity.
Defined.

Lemma validation_outcome_witness :
  validate_config Sample.cloud false
    (Sample.settings "%Y-%m-%d_%H%M%S" "Created-By" "k8s-snapshots")
  = (Ok false,
     [DatetimeFormatError "dummy-snapshot-2026-11-04_120000";
      LabelError "snapshot_author_label" true false "Created-By"]).
Proof.
  refine (eq_trans
            (validation_outcome Sample.cloud false
               (Sample.settings "%Y-%m-%d_%H%M%S" "Created-By" "k8s-snapshots")
               "%Y-%m-%d_%H%M%S" "Created-By" "k8s-snapshots" _ _ _) _);
    vm_compute; reflexivity.
Defined.

Section NameRuleMore.
Variable P : platform.
Implicit Types (config : gmap string string) (order : bool).

Lemma str_app_assoc (p q r : string) : (p ++ q) ++ r = p ++ (q ++ r).
Proof. induction p as [|c p IH]; [done|]. by rewrite !str_app_cons, IH. Qed.

Lemma chomp_no_final_newline (s : string) :
  ends_with newline s = false -> chomp s = s.
Proof.
  induction s as [|c s IH]; [done|].
  cbn [ends_with chomp]. destruct s as [|d s].
  - by intros ->.
  - intros H. by rewrite IH.
Qed.

Lemma length_chomp (s : string) : String.length s <= S (String.length (chomp s)).
Proof.
  induction s as [|c s IH]; [cbn; lia|].
  cbn [chomp]. destruct s as [|d s].
  - destruct (Ascii.eqb c newline); cbn; lia.
  - cbn [String.length] in *. lia.
Qed.

Lemma valid_snapshot_name_length (s : string) :
  valid_snapshot_name s = true -> String.length s <= 63.
Proof.
  destruct s as [|c t]; [done|]. cbn [valid_snapshot_name String.length].
  intros [[[_ _]%andb_true_iff Hlen%Nat.leb_le]%andb_true_iff _]%andb_true_iff.
  lia.
Qed.

Lemma ends_with_app (c : ascii) (p q : string) :
  q <> EmptyString -> ends_with c (p ++ q) = ends_with c q.
Proof.
  intros Hq. induction p as [|d p IH]; [done|].
  rewrite str_app_cons. cbn [ends_with]. rewrite IH.
  destruct (p ++ q) eqn:Hpq; [|done]. destruct p; [done|discriminate].
Qed.

Lemma all_in_weaken (c1 c2 : ascii -> bool) (s : string) :
  (forall c, c1 c = true -> c2 c = true) ->
  all_in c1 s = true -> all_in c2 s = true.
Proof.
  intros Hc. induction s as [|c s IH]; [done|]. cbn [all_in].
  intros [H1 H2]%andb_true_iff. by rewrite (Hc c H1), IH.
Qed.

Lemma alnum_no_final_dash (s : string) :
  s <> EmptyString -> all_in lower_az09 s = true -> ends_with "-" s = false.
Proof.
  intros Hs Hall. destruct s as [|c t]; [done|].
  destruct (snoc_exists c t) as (p & x & Hpx). rewrite Hpx in *.
  rewrite ends_with_snoc. rewrite all_in_app in Hall.
  apply andb_true_iff in Hall as [_ Hx]. cbn [all_in] in Hx.
  rewrite andb_true_r in Hx. by apply lower_az09_not_dash.
Qed.

Lemma name_reported order config fmt :
  config !! "snapshot_datetime_format" = Some fmt ->
  reported "snapshot_datetime_format" (snd (validate_config P order config))
  = negb (valid_snapshot_name (chomp ("dummy-snapshot-" ++ now_format P fmt))).
Proof.
  intros Hfmt. rewrite (validation_name_rule P order config fmt Hfmt).
  by rewrite name_regex_match.
Qed.

(** X4. An uppercase letter anywhere in the rendered datetime makes the
    validation report the datetime format. *)
Theorem uppercase_anywhere_reported order config fmt (p q : string) (c : ascii) :
  config !! "snapshot_datetime_format" = Some fmt ->
  now_format P fmt = p ++ String c q ->
  ascii_upper c = true ->
  reported "snapshot_datetime_format" (snd (validate_config P order config))
  = true.
Proof.
  intros Hfmt Hrender Hc. rewrite (name_reported order config fmt Hfmt), Hrender.
  apply negb_true_iff. rewrite <- str_app_assoc, chomp_app by done.
  destruct (chomp_cons c q) as [t' ->].
  { intros ->. discriminate. }
  change ("dummy-snapshot-" ++ p)
    with (String "d" ("ummy-snapshot-" ++ p)).
  rewrite str_app_cons. cbn [valid_snapshot_name].
  rewrite all_in_app. cbn [all_in].
  rewrite (upper_not_name_char c Hc). by rewrite !andb_false_r.
Qed.

(** X5. The name rule bounds the rendered datetime: a rendering of more
    than 49 characters is reported, and so is the empty rendering (the
    name then ends in a dash); a rendering of 1 to 48 lowercase letters
    and digits is not. *)
Theorem datetime_length_bounds order config fmt :
  config !! "snapshot_datetime_format" = Some fmt ->
  (49 < String.length (now_format P fmt) ->
   reported "snapshot_datetime_format" (snd (validate_config P order config))
   = true) /\
  (now_format P fmt = EmptyString ->
   reported "snapshot_datetime_format" (snd (validate_config P order config))
   = true) /\
  (now_format P fmt <> EmptyString ->
   all_in lower_az09 (now_format P fmt) = true ->
   String.length (now_format P fmt) <= 48 ->
   reported "snapshot_datetime_format" (snd (validate_config P order config))
   = false).
Proof.
  intros Hfmt. rewrite (name_reported order config fmt Hfmt).
  generalize (now_format P fmt). intros r. repeat split.
  - intros Hlen. apply negb_true_iff.
    destruct (valid_snapshot_name (chomp ("dummy-snapshot-" ++ r))) eqn:Hv; [|done].
    apply valid_snapshot_name_length in Hv.
    pose proof (length_chomp ("dummy-snapshot-" ++ r)) as Hc.
    rewrite str_length_app in Hc. cbn [String.length] in Hc. lia.
  - intros ->. vm_compute. reflexivity.
  - intros Hr Hall Hlen. apply negb_false_iff.
    assert (all_in dash_lower_az09 r = true) as Hd.
    { revert Hall. apply all_in_weaken, lower_az09_dash. }
    rewrite (chomp_no_newline dash_lower_az09);
      [|apply dash_lower_az09_newline|].
    + change ("dummy-snapshot-" ++ r)
        with (String "d" ("ummy-snapshot-" ++ r)).
      cbn [valid_snapshot_name].
      rewrite all_in_app, Hd, str_length_app, (ends_with_app _ _ r Hr).
      rewrite (alnum_no_final_dash r Hr Hall).
      replace (lower_az "d") with true by (vm_compute; reflexivity).
      replace (all_in dash_lower_az09 "ummy-snapshot-") with true
        by (vm_compute; reflexivity).
      cbn [String.length andb negb]. rewrite andb_true_r.
      apply Nat.leb_le. lia.
    + rewrite all_in_app, Hd. vm_compute. reflexivity.
Qed.
End NameRuleMore.

Lemma uppercase_anywhere_reported_witness :
  reported "snapshot_datetime_format"
    (snd (validate_config Sample.cloud true
            (Sample.settings "%Y%m%dT%H%M%S" "created-by" "k8s-snapshots")))
  = true.
Proof.
  refine (uppercase_anywhere_reported Sample.cloud true
            (Sample.settings "%Y%m%dT%H%M%S" "created-by" "k8s-snapshots")
            "%Y%m%dT%H%M%S" "20261104" "120000" "T" _ _ _);
    vm_compute; reflexivity.
Defined.

Lemma datetime_length_bounds_witness :
  reported "snapshot_datetime_format"
    (snd (validate_config Sample.cloud true
            (Sample.settings "%Y%m%d%H%M%S" "created-by" "k8s-snapshots")))
  = false.
Proof.
  refine (proj2 (proj2 (datetime_length_bounds Sample.cloud true
                          (Sample.settings "%Y%m%d%H%M%S" "created-by" "k8s-snapshots")
                          "%Y%m%d%H%M%S" _)) _ _ _).
  - vm_compute; reflexivity.
  - vm_compute; discriminate.
  - vm_compute; reflexivity.
  - vm_compute; lia.
Defined.

Section NewlineMore.
Variable P : platform.
Implicit Types (config : gmap string string) (order : bool).

Lemma islower_from_final_newline (b : bool) (s : string) :
  islower_from (unicode P) b (s ++ String newline EmptyString)
  = islower_from (unicode P) b s.
Proof.
  revert b. induction s as [|c s IH]; intros b.
  - change (b || false = b). apply orb_false_r.
  - rewrite str_app_cons. cbn [islower_from]. by rewrite IH.
Qed.

Lemma valid_label_key_final_newline (v : string) :
  ends_with newline v = false ->
  valid_label_key P (v ++ String newline EmptyString) = valid_label_key P v.
Proof.
  intros Hend. unfold valid_label_key, islower.
  rewrite !label_regex_match, chomp_app_newline, (chomp_no_final_newline v Hend).
  rewrite islower_from_final_newline.
  destruct v as [|c t]; [|done]. cbn [islower_from].
  by rewrite !andb_false_r.
Qed.

(** X6. The rules stop at a final newline: a key-typed label that
    passes still passes with a newline appended, and a rendered datetime
    that gives a valid name is not reported with a newline appended. *)
Theorem final_newline_passes order config fmt :
  config !! "snapshot_datetime_format" = Some fmt ->
  (forall v w,
     config !! "snapshot_author_label" = Some (v ++ String newline EmptyString) ->
     config !! "snapshot_author_label_key" = Some w ->
     valid_label_key P v = true -> ends_with newline v = false ->
     reported "snapshot_author_label" (snd (validate_config P order config))
     = false) /\
  (forall r,
     now_format P fmt = r ++ String newline EmptyString ->
     valid_snapshot_name ("dummy-snapshot-" ++ r) = true ->
     reported "snapshot_datetime_format" (snd (validate_config P order config))
     = false).
Proof.
  intros Hfmt. split.
  - intros v w Hv Hw Hvalid Hend.
    rewrite (key_label_reported P order config fmt _ w Hfmt Hv Hw).
    by rewrite (valid_label_key_final_newline v Hend), Hvalid.
  - intros r Hr Hvalid. rewrite (name_reported P order config fmt Hfmt), Hr.
    by rewrite <- str_app_assoc, chomp_app_newline, Hvalid.
Qed.
End NewlineMore.

Lemma final_newline_passes_witness :
  reported "snapshot_author_label"
    (snd (validate_config Sample.cloud true
            (Sample.settings "%d%m%y-%H%M%S"
               ("created-by" ++ String newline EmptyString) "k8s-snapshots")))
  = false.
Proof.
  refine (proj1 (final_newline_passes Sample.cloud true
                   (Sample.settings "%d%m%y-%H%M%S"
                      ("created-by" ++ String newline EmptyString) "k8s-snapshots")
                   "%d%m%y-%H%M%S" _) "created-by" "k8s-snapshots" _ _ _ _);
    vm_compute; reflexivity.
Defined.

(** ** Further properties of the resolver and of the list filter *)

(** X7. The filter expression is made of the first pair of the filter
    map; the pairs that follow are ignored. *)
Theorem snapshot_list_filter_expr_first_pair
    (key value : string) (rest : odict string) :
  snapshot_list_filter_expr ((key, value) :: rest)
  = Ok ("labels." ++ key ++ " eq " ++ value).
Proof.
  unfold snapshot_list_filter_expr, mbind, result_bind.
  cbn [keys map fst first ogetitem]. by rewrite String.eqb_refl.
Qed.

(** X8. Keys and values are copied into the expression as they are: a
    key that holds [ eq ] and the key before it with the rest moved to
    the value give the same expression. *)
Theorem snapshot_list_filter_expr_no_escaping (a b c : string) :
  snapshot_list_filter_expr [(a ++ " eq " ++ b, c)]
  = snapshot_list_filter_expr [(a, b ++ " eq " ++ c)].
Proof.
  unfold snapshot_list_filter_expr, mbind, result_bind.
  cbn [keys map fst first ogetitem]. rewrite !String.eqb_refl.
  cbn [mret result_ret]. f_equal. f_equal.
  by rewrite !str_app_assoc.
Qed.

(** X9. [get_disk_identifier] looks at the API object and at the zone
    label only: volumes that agree on them get the same answer, whatever
    their other labels and their annotations. *)
Theorem get_disk_identifier_reads (v1 v2 : PersistentVolume) :
  obj v1 = obj v2 -> zone_label v1 = zone_label v2 ->
  get_disk_identifier v1 = get_disk_identifier v2.
Proof.
  intros Hobj Hzone. rewrite !get_disk_identifier_steps.
  unfold pd_name. by rewrite Hobj, Hzone.
Qed.

Lemma get_disk_identifier_reads_witness :
  get_disk_identifier
    {| obj := JObj {[ "spec" := JObj (Sample.gce_disk "disk-1") ]};
       labels := {[ "failure-domain.beta.kubernetes.io/zone" := "europe-west1-b";
                    "failure-domain.beta.kubernetes.io/region" := "us-east1" ]};
       annotations := ∅ |}
  = get_disk_identifier
      (Sample.volume (Sample.gce_disk "disk-1")
         {[ "failure-domain.beta.kubernetes.io/zone" := "europe-west1-b" ]}).
Proof.
  apply get_disk_identifier_reads; vm_compute; reflexivity.
Defined.

(** X10. A volume without the disk name raises the error of the lookup
    that fails, [KeyError] for the missing component of
    [spec.gcePersistentDisk.pdName] or [TypeError] under a component that
    is not an object, whatever its zone label. *)
Theorem get_disk_identifier_lookup_error (volume : PersistentVolume) (e : exn) :
  pd_name volume = Raise e ->
  get_disk_identifier volume = Raise e /\
  (e = KeyError "spec" \/ e = KeyError "gcePersistentDisk" \/
   e = KeyError "pdName" \/ e = TypeError).
Proof.
  intros Hpd. rewrite get_disk_identifier_steps, Hpd. split; [done|].
  revert Hpd. unfold pd_name, mbind, result_bind.
  destruct (jgetitem (obj volume) "spec") as [spec|e1] eqn:H1.
  - destruct (jgetitem spec "gcePersistentDisk") as [pd|e2] eqn:H2.
    + intros [-> | ->]%jgetitem_raises; auto.
    + intros [= <-]. apply jgetitem_raises in H2 as [-> | ->]; auto.
  - intros [= <-]. apply jgetitem_raises in H1 as [-> | ->]; auto.
Qed.

Lemma get_disk_identifier_lookup_error_witness :
  get_disk_identifier
    (Sample.volume {[ "awsElasticBlockStore" := JObj {[ "volumeID" := JStr "vol-1" ]} ]}
       {[ "failure-domain.beta.kubernetes.io/zone" := "europe-west1-b" ]})
  = Raise (KeyError "gcePersistentDisk").
Proof.
  refine (proj1 (get_disk_identifier_lookup_error _ _ _)).
  vm_compute; reflexivity.
Defined.

(** ** The client: [get_gcloud] *)

Section Credentials.
Variable P : platform.
Implicit Types (ctx : Context).

(** X11. With neither keyfile field set (absent or empty), the client is
    built from the application default credentials; when there are none,
    [get_gcloud] raises [RuntimeError]. *)
Theorem get_gcloud_default ctx :
  (config ctx !! "gcloud_json_keyfile_name" = None \/
   config ctx !! "gcloud_json_keyfile_name" = Some EmptyString) ->
  (config ctx !! "gcloud_json_keyfile_string" = None \/
   config ctx !! "gcloud_json_keyfile_string" = Some EmptyString) ->
  get_gcloud P ctx =
  match get_application_default P with
  | Returned (Some c) => from_library (discovery_build P c)
  | Returned None =>
      Raise (RuntimeError "Auth for Google Cloud was not configured")
  | Failed what => Raise (LibraryError what)
  end.
Proof.
  intros Hname Hstring. unfold get_gcloud, mbind, result_bind, mret, result_ret.
  destruct Hname as [-> | ->]; destruct Hstring as [-> | ->];
    by destruct (get_application_default P) as [[c|]|what].
Qed.

(** X12. A keyfile given as a string wins over a keyfile given by name:
    when both are set and load, the client is built from the credentials
    of the string, and the application default credentials play no
    part. *)
Theorem get_gcloud_string_wins ctx (keyfile_string : string)
    (c : credentials P) :
  config ctx !! "gcloud_json_keyfile_string" = Some keyfile_string ->
  keyfile_string <> EmptyString ->
  from_json_keyfile_string P keyfile_string = Returned c ->
  (config ctx !! "gcloud_json_keyfile_name" = None \/
   config ctx !! "gcloud_json_keyfile_name" = Some EmptyString \/
   exists keyfile_name c',
     config ctx !! "gcloud_json_keyfile_name" = Some keyfile_name /\
     from_json_keyfile_name P keyfile_name = Returned c') ->
  get_gcloud P ctx = from_library (discovery_build P c).
Proof.
  intros Hs Hne Hload Hname.
  unfold get_gcloud, mbind, result_bind, mret, result_ret. rewrite Hs.
  destruct keyfile_string as [|a s]; [done|].
  destruct Hname as [-> | [-> | (n & c' & -> & Hn)]].
  - by rewrite Hload.
  - by rewrite Hload.
  - destruct n as [|b n]; [by rewrite Hload|]. by rewrite Hn, Hload.
Qed.

(** X13. A keyfile given by name is loaded first: when that load fails,
    [get_gcloud] raises its error, a keyfile string and application
    default credentials notwithstanding. *)
Theorem get_gcloud_name_fails ctx (keyfile_name what : string) :
  config ctx !! "gcloud_json_keyfile_name" = Some keyfile_name ->
  keyfile_name <> EmptyString ->
  from_json_keyfile_name P keyfile_name = Failed what ->
  get_gcloud P ctx = Raise (LibraryError what).
Proof.
  intros Hn Hne Hload.
  unfold get_gcloud, mbind, result_bind, mret, result_ret. rewrite Hn.
  destruct keyfile_name as [|a s]; [done|]. by rewrite Hload.
Qed.
End Credentials.

(** ** The status check: requests and errors *)

(** X14. A status check never returns FAILED: it returns PENDING or
    COMPLETE, or raises. *)
Theorem poll_never_returns_failed (P : platform) (ctx : Context)
    (handle : gmap string string) (w : world P) :
  fst (get_snapshot_status P ctx handle w) = Ok PENDING \/
  fst (get_snapshot_status P ctx handle w) = Ok COMPLETE \/
  exists e, fst (get_snapshot_status P ctx handle w) = Raise e.
Proof.
  unfold get_snapshot_status, mbind, M_bind, Py.bind, lift, getitem, send,
    mret, M_ret, Py.ret, Py.raise.
  destruct (get_gcloud P ctx) as [gcloud|e]; [|eauto].
  destruct (config ctx !! "gcloud_project") as [project|]; [|eauto].
  destruct (handle !! "zone") as [zone|]; [|eauto].
  destruct (handle !! "operation_name") as [operation_name|]; [|eauto].
  destruct (execute P gcloud _ (service w)) as [o1 s1].
  destruct (from_library o1) as [op|e]; [|eauto].
  destruct (jgetitem op "status") as [st|e]; [|eauto].
  destruct (eq_str st "DONE"); cbn [negb]; [|auto].
  destruct (handle !! "snapshot_name") as [snapshot_name|]; [|eauto].
  cbn [service trace].
  destruct (execute P gcloud _ s1) as [o2 s2].
  destruct (from_library o2) as [snap|e]; [|eauto].
  destruct (jgetitem snap "status") as [st2|e]; [|eauto].
  destruct (eq_str st2 "FAILED"); [eauto|].
  destruct (eq_str st2 "READY"); cbn [negb]; auto.
Qed.

(** X15. A status check that cannot start sends nothing: when the
    client cannot be built, the project is not configured, or the handle
    lacks the zone or the operation name, it raises and leaves the
    service and the trace as they were. *)
Theorem poll_sends_nothing_unless_started (P : platform) (ctx : Context)
    (handle : gmap string string) (w : world P) :
  (forall e, get_gcloud P ctx = Raise e ->
             get_snapshot_status P ctx handle w = (Raise e, w)) /\
  (forall gcloud, get_gcloud P ctx = Ok gcloud ->
     (config ctx !! "gcloud_project" = None ->
      get_snapshot_status P ctx handle w
      = (Raise (KeyError "gcloud_project"), w)) /\
     (forall project, config ctx !! "gcloud_project" = Some project ->
        (handle !! "zone" = None ->
         get_snapshot_status P ctx handle w = (Raise (KeyError "zone"), w)) /\
        (forall zone, handle !! "zone" = Some zone ->
           handle !! "operation_name" = None ->
           get_snapshot_status P ctx handle w
           = (Raise (KeyError "operation_name"), w)))).
Proof.
  unfold get_snapshot_status, mbind, M_bind, Py.bind, lift, getitem.
  split; [by intros e ->|]. intros gcloud ->. split; [by intros ->|].
  intros project ->. split; [by intros ->|]. by intros zone -> ->.
Qed.

Lemma poll_sends_nothing_unless_started_witness :
  get_snapshot_status Sample.cloud Sample.ctx
    {[ "snapshot_name" := "pv-data-041126-120000" ]}
    (Sample.start {| Sample.operation_says := ["DONE"];
                     Sample.snapshot_says := ["READY"] |})
  = (Raise (KeyError "zone"),
     Sample.start {| Sample.operation_says := ["DONE"];
                     Sample.snapshot_says := ["READY"] |}).
Proof.
  refine (proj1 (proj2 (proj2 (poll_sends_nothing_unless_started Sample.cloud
                                 Sample.ctx _ _) tt _) "my-project" _) _);
    vm_compute; reflexivity.
Defined.

Section StatusCheckMore.
Variable P : platform.
Variables (ctx : Context) (handle : gmap string string).
Variables (gcloud : client P) (project zone operation_name : string).
Hypothesis client_built : get_gcloud P ctx = Ok gcloud.
Hypothesis project_set : config ctx !! "gcloud_project" = Some project.
Hypothesis handle_zone : handle !! "zone" = Some zone.
Hypothesis handle_operation : handle !! "operation_name" = Some operation_name.

Local Abbreviation poll := (get_snapshot_status P ctx handle).
Local Abbreviation op_status :=
  (operation_status P gcloud project zone operation_name).
Local Abbreviation operation_exchange w :=
  (ZoneOperationsGet project zone operation_name,
   fst (execute P gcloud (ZoneOperationsGet project zone operation_name)
          (service w))).

(** X16. The requests of a status check: the operation read always, and
    after it the snapshot read exactly when the operation read reports
    DONE. *)
Theorem poll_requests (snapshot_name : string) (w : world P) :
  handle !! "snapshot_name" = Some snapshot_name ->
  (op_status w = Ok (JStr "DONE") ->
   trace (snd (poll w)) =
   (trace w ++
    [operation_exchange w;
     (SnapshotsGet snapshot_name project,
      fst (execute P gcloud (SnapshotsGet snapshot_name project)
             (snd (execute P gcloud
                     (ZoneOperationsGet project zone operation_name)
                     (service w)))))])%list) /\
  (op_status w <> Ok (JStr "DONE") ->
   trace (snd (poll w)) = (trace w ++ [operation_exchange w])%list).
Proof.
  intros handle_snapshot.
  rewrite (poll_steps P ctx handle gcloud project zone operation_name
             snapshot_name client_built project_set handle_zone
             handle_operation handle_snapshot w).
  cbv zeta. split.
  - intros ->. cbn [eq_str]. rewrite String.eqb_refl. cbn [snd trace].
    by rewrite <- app_assoc.
  - intros Hnot. destruct (op_status w) as [st|e]; [|done].
    destruct (eq_str st "DONE") eqn:Hd; [|done].
    apply eq_str_true in Hd as ->. done.
Qed.

(** X17. What goes wrong with a read is raised as it is: a status check
    whose operation read fails, or answers without a status, raises that
    error and reads no snapshot; once the operation is DONE, an error of
    the snapshot read is raised likewise. *)
Theorem poll_propagates_errors (snapshot_name : string) (w : world P) (e : exn) :
  handle !! "snapshot_name" = Some snapshot_name ->
  (op_status w = Raise e ->
   fst (poll w) = Raise e /\
   snapshot_reads (trace (snd (poll w))) = snapshot_reads (trace w)) /\
  (op_status w = Ok (JStr "DONE") ->
   snapshot_status P gcloud project zone operation_name snapshot_name w
   = Raise e ->
   fst (poll w) = Raise e).
Proof.
  intros handle_snapshot.
  rewrite (poll_steps P ctx handle gcloud project zone operation_name
             snapshot_name client_built project_set handle_zone
             handle_operation handle_snapshot w).
  cbv zeta. split.
  - intros ->. cbn [fst snd trace]. split; [done|].
    rewrite snapshot_reads_app. cbn. lia.
  - intros -> ->. cbn [eq_str]. by rewrite String.eqb_refl.
Qed.

(** X18. The snapshot name of the handle is looked up only once the
    operation is DONE: a handle without it still gets PENDING while the
    operation runs, and [KeyError] after the operation read once the
    operation is DONE. *)
Theorem poll_handle_without_snapshot_name (w : world P) :
  handle !! "snapshot_name" = None ->
  (op_status w = Ok (JStr "DONE") ->
   fst (poll w) = Raise (KeyError "snapshot_name") /\
   trace (snd (poll w)) = (trace w ++ [operation_exchange w])%list) /\
  (forall status, op_status w = Ok status -> status <> JStr "DONE" ->
                  fst (poll w) = Ok PENDING).
Proof.
  intros Hmissing.
  unfold operation_status, get_snapshot_status,
    mbind, M_bind, Py.bind, lift, getitem, send, mret, M_ret, Py.ret.
  rewrite client_built, project_set, handle_zone, handle_operation, Hmissing.
  destruct (execute P gcloud _ (service w)) as [o1 s1]. cbn [fst snd].
  destruct (from_library o1) as [op|e]; split; try done.
  - intros ->. cbn [eq_str]. by rewrite String.eqb_refl.
  - intros status -> Hnot%eq_str_false. by rewrite Hnot.
Qed.
End StatusCheckMore.

Lemma get_gcloud_default_witness :
  get_gcloud Fixture.project (Fixture.ctx EmptyString)
  = Raise (RuntimeError "Auth for Google Cloud was not configured").
Proof.
  refine (eq_trans (get_gcloud_default Fixture.project
                      (Fixture.ctx EmptyString) _ _) _).
  - right. vm_compute; reflexivity.
  - left. vm_compute; reflexivity.
  - reflexivity.
Defined.

Lemma get_gcloud_string_wins_witness :
  get_gcloud Fixture.project
    {| config := {[ "gcloud_project" := "my-project";
                    "gcloud_json_keyfile_name" := "/secrets/key.json";
                    "gcloud_json_keyfile_string" := "keyfile-contents" ]} |}
  = Ok "inline".
Proof.
  refine (get_gcloud_string_wins Fixture.project _ "keyfile-contents" "inline"
            _ _ _ _).
  - vm_compute; reflexivity.
  - discriminate.
  - reflexivity.
  - right; right. exists "/secrets/key.json", "file:/secrets/key.json".
    split; vm_compute; reflexivity.
Defined.

Lemma get_gcloud_name_fails_witness :
  get_gcloud Fixture.project
    {| config := {[ "gcloud_project" := "my-project";
                    "gcloud_json_keyfile_name" := "/secrets/none.json";
                    "gcloud_json_keyfile_string" := "keyfile-contents" ]} |}
  = Raise (LibraryError "No such file or directory").
Proof.
  refine (get_gcloud_name_fails Fixture.project _ "/secrets/none.json" _ _ _ _).
  - vm_compute; reflexivity.
  - discriminate.
  - vm_compute; reflexivity.
Defined.

Lemma poll_requests_witness :
  map fst
    (trace (snd (get_snapshot_status Sample.cloud Sample.ctx Sample.handle
                   (Sample.start {| Sample.operation_says := ["DONE"];
                                    Sample.snapshot_says := ["UPLOADING"] |}))))
  = [ZoneOperationsGet "my-project" "europe-west1-b" "operation-1730721600";
     SnapshotsGet "pv-data-041126-120000" "my-project"].
Proof.
  rewrite (proj1 (poll_requests Sample.cloud Sample.ctx Sample.handle tt
                    "my-project" "europe-west1-b" "operation-1730721600"
                    ltac:(vm_compute; reflexivity) ltac:(vm_compute; reflexivity)
                    ltac:(vm_compute; reflexivity) ltac:(vm_compute; reflexivity)
                    "pv-data-041126-120000"
                    (Sample.start {| Sample.operation_says := ["DONE"];
                                     Sample.snapshot_says := ["UPLOADING"] |})
                    ltac:(vm_compute; reflexivity))
             ltac:(vm_compute; reflexivity)).
  reflexivity.
Defined.

Lemma poll_propagates_errors_witness :
  fst (get_snapshot_status Fixture.offline (Fixture.ctx "/secrets/key.json")
         Sample.handle
         (Build_world Fixture.offline
            {| Fixture.fingerprint := "42WmSpB8rSM="; Fixture.changes := 0 |} []))
  = Raise (LibraryError "503 Service Unavailable").
Proof.
  refine (proj1 (proj1 (poll_propagates_errors Fixture.offline
                          (Fixture.ctx "/secrets/key.json") Sample.handle
                          "file:/secrets/key.json"
                          "my-project" "europe-west1-b" "operation-1730721600"
                          _ _ _ _ "pv-data-041126-120000" _ _ _) _));
    vm_compute; reflexivity.
Defined.

Lemma poll_handle_without_snapshot_name_witness :
  fst (get_snapshot_status Sample.cloud Sample.ctx
         {[ "zone" := "europe-west1-b";
            "operation_name" := "operation-1730721600" ]}
         (Sample.start {| Sample.operation_says := ["DONE"];
                          Sample.snapshot_says := ["READY"] |}))
  = Raise (KeyError "snapshot_name").
Proof.
  refine (proj1 (proj1 (poll_handle_without_snapshot_name Sample.cloud
                          Sample.ctx _ tt
                          "my-project" "europe-west1-b" "operation-1730721600"
                          _ _ _ _ _ _) _));
    vm_compute; reflexivity.
Defined.

(** ** Listing: the source disk of a snapshot *)

Lemma split_not_nil (sep : ascii) (s : string) : split sep s <> [].
Proof.
  destruct s as [|c t]; cbn [split]; [done|].
  destruct (Ascii.eqb c sep); [done|]. by destruct (split sep t).
Qed.

Lemma split_app (sep : ascii) (p q : string) :
  split sep (p ++ String sep q) = (split sep p ++ split sep q)%list.
Proof.
  induction p as [|c p IH].
  - change (EmptyString ++ String sep q) with (String sep q).
    cbn [split]. by rewrite Ascii.eqb_refl.
  - rewrite str_app_cons. cbn [split]. rewrite IH.
    destruct (Ascii.eqb c sep); [done|].
    pose proof (split_not_nil sep p) as Hp.
    by destruct (split sep p).
Qed.

Lemma split_whole (sep : ascii) (s : string) :
  count_char sep s = 0 -> split sep s = [s].
Proof.
  induction s as [|c t IH]; [done|]. cbn [count_char split].
  destruct (Ascii.eqb c sep); [done|]. intros H. by rewrite IH.
Qed.

Lemma length_split (sep : ascii) (s : string) :
  List.length (split sep s) = S (count_char sep s).
Proof.
  induction s as [|c t IH]; [done|]. cbn [count_char split].
  destruct (Ascii.eqb c sep); cbn [List.length]; [by rewrite IH|].
  pose proof (split_not_nil sep t) as Ht.
  destruct (split sep t); [done|]. cbn [List.length] in *. by rewrite IH.
Qed.

Lemma lastn_app {A} (xs ys : list A) :
  lastn (List.length ys) (xs ++ ys) = ys.
Proof.
  unfold lastn. rewrite List.length_app.
  replace (List.length xs + List.length ys - List.length ys)
    with (List.length xs) by lia.
  by rewrite List.skipn_app, List.skipn_all, Nat.sub_diag.
Qed.

Lemma length_lastn {A} (n : nat) (xs : list A) :
  List.length (lastn n xs) = Nat.min n (List.length xs).
Proof. unfold lastn. rewrite List.length_skipn. lia. Qed.

(** X19. The source disk of a listed snapshot is read off the last four
    segments of its URL: the second is the zone and the fourth the disk,
    whatever the first and the third are and whatever comes before. *)
Theorem source_disk_last_four (item : json) (before a z b n : string) :
  jgetitem item "sourceDisk"
  = Ok (JStr (before ++ "/" ++ a ++ "/" ++ z ++ "/" ++ b ++ "/" ++ n)) ->
  count_char "/" a = 0 -> count_char "/" z = 0 ->
  count_char "/" b = 0 -> count_char "/" n = 0 ->
  source_disk item = Done (z, n).
Proof.
  intros Hitem Ha Hz Hb Hn. unfold source_disk. rewrite Hitem.
  change ("/" ++ a ++ "/" ++ z ++ "/" ++ b ++ "/" ++ n)
    with (String "/" (a ++ String "/" (z ++ String "/" (b ++ String "/" n)))).
  rewrite !split_app, (split_whole _ n Hn), (split_whole _ b Hb),
    (split_whole _ z Hz), (split_whole _ a Ha).
  change ([a] ++ [z] ++ [b] ++ [n])%list with [a; z; b; n].
  pose proof (lastn_app (split "/" before) [a; z; b; n]) as Hlast.
  cbn [List.length] in Hlast. by rewrite Hlast.
Qed.

(** X20. A source disk with fewer than three slashes cannot be unpacked:
    [source_disk] raises [ValueError] exactly then. *)
Theorem source_disk_needs_three_slashes (item : json) (url : string) :
  jgetitem item "sourceDisk" = Ok (JStr url) ->
  (count_char "/" url < 3 <-> source_disk item = Thrown ValueError).
Proof.
  intros Hitem. unfold source_disk. rewrite Hitem.
  pose proof (length_lastn 4 (split "/" url)) as Hlen.
  rewrite length_split in Hlen.
  destruct (lastn 4 (split "/" url)) as [|x1 [|x2 [|x3 [|x4 [|x5 r]]]]];
    cbn [List.length] in Hlen; split; intros H; try done; try lia.
Qed.

(** ** Listing, creating, labelling and deleting: requests and errors *)

Lemma filter_of_first_pair (key value : string) (rest : odict string) :
  snapshot_list_filter_expr ((key, value) :: rest)
  = Ok ("labels." ++ key ++ " eq " ++ value).
Proof.
  unfold snapshot_list_filter_expr, mbind, result_bind.
  cbn [keys map fst first ogetitem]. by rewrite String.eqb_refl.
Qed.

Section ClientFacts.
Variable P : platform.
Variable A : service_api P.
Variables (ctx : Context) (gcloud : client P) (project : string).
Hypothesis client_built : get_gcloud P ctx = Ok gcloud.
Hypothesis project_set : config ctx !! "gcloud_project" = Some project.

Lemma collect_from (items : list json) (acc : list (Snapshot.t (timestamp A))) :
  collect P A items acc =
  match collect P A items [] with
  | Done l => Done (acc ++ l)%list
  | Thrown e => Thrown e
  end.
Proof.
  revert acc. induction items as [|item items IH]; intros acc; cbn [collect].
  - by rewrite app_nil_r.
  - destruct (snapshot_of P A item) as [s|e]; [|done].
    rewrite (IH (acc ++ [s])%list), (IH ([] ++ [s])%list).
    destruct (collect P A items []) as [l|e]; [|done].
    by rewrite <- app_assoc.
Qed.

Lemma collect_all (items : list json) (snaps : list (Snapshot.t (timestamp A))) :
  Forall2 (fun item s => snapshot_of P A item = Done s) items snaps ->
  collect P A items [] = Done snaps.
Proof.
  induction 1 as [|item s items snaps Hs _ IH]; [done|].
  cbn [collect]. rewrite Hs, collect_from, IH. done.
Qed.

Lemma collect_stops (good more : list json) (bad : json)
    (snaps : list (Snapshot.t (timestamp A))) (e : raised) :
  Forall2 (fun item s => snapshot_of P A item = Done s) good snaps ->
  snapshot_of P A bad = Thrown e ->
  collect P A (good ++ bad :: more)%list [] = Thrown e.
Proof.
  intros Hgood Hbad. induction Hgood as [|item s items snaps' Hs _ IH].
  - cbn [app collect]. by rewrite Hbad.
  - cbn [app collect]. by rewrite Hs, collect_from, IH.
Qed.

Lemma load_snapshots_steps (key value : string) (rest : odict string)
    (w : session P) :
  load_snapshots P A ctx ((key, value) :: rest) w =
  let filter := "labels." ++ key ++ " eq " ++ value in
  let r := snapshots_list A gcloud project filter (backend w) in
  let w' := Build_session P (snd r)
              (exchanges w ++ [Listed project filter (fst r)]) in
  match fst r with
  | Failed what => (Thrown (Builtin (LibraryError what)), w')
  | Returned items => (collect P A (default [] items) [], w')
  end.
Proof.
  unfold load_snapshots. rewrite client_built.
  unfold getitem. rewrite project_set.
  rewrite filter_of_first_pair.
  cbn [mbind result_bind mret result_ret]. cbv zeta.
  by destruct (snapshots_list A gcloud project _ (backend w)) as [[items|what] s'].
Qed.

(** X21. A listing sends one list request, filtered on the first pair of
    the filter map, and returns one snapshot per item of the answer, in
    the order of the answer; an answer without items gives the empty
    list. *)
Theorem load_snapshots_in_order (key value : string) (rest : odict string)
    (w : session P) (items : option (list json))
    (snaps : list (Snapshot.t (timestamp A))) :
  fst (snapshots_list A gcloud project ("labels." ++ key ++ " eq " ++ value)
         (backend w)) = Returned items ->
  Forall2 (fun item s => snapshot_of P A item = Done s) (default [] items) snaps ->
  load_snapshots P A ctx ((key, value) :: rest) w =
  (Done snaps,
   Build_session P
     (snd (snapshots_list A gcloud project
             ("labels." ++ key ++ " eq " ++ value) (backend w)))
     (exchanges w ++
      [Listed project ("labels." ++ key ++ " eq " ++ value) (Returned items)])).
Proof.
  intros Hlist Hitems. rewrite load_snapshots_steps. cbv zeta.
  rewrite Hlist. by rewrite (collect_all _ _ Hitems).
Qed.

(** X22. A listing is all or nothing: when an item of the answer cannot
    be converted, the listing raises the error of the first such item and
    returns none of the snapshots before it. *)
Theorem load_snapshots_all_or_nothing (key value : string) (rest : odict string)
    (w : session P) (good more : list json) (bad : json)
    (snaps : list (Snapshot.t (timestamp A))) (e : raised) :
  fst (snapshots_list A gcloud project ("labels." ++ key ++ " eq " ++ value)
         (backend w)) = Returned (Some (good ++ bad :: more)%list) ->
  Forall2 (fun item s => snapshot_of P A item = Done s) good snaps ->
  snapshot_of P A bad = Thrown e ->
  fst (load_snapshots P A ctx ((key, value) :: rest) w) = Thrown e.
Proof.
  intros Hlist Hgood Hbad. rewrite load_snapshots_steps. cbv zeta.
  rewrite Hlist. cbn [default from_option id fst].
  by rewrite (collect_stops good more bad snaps e Hgood Hbad).
Qed.

(** X23. With an empty filter map the listing raises [IndexError] and
    sends no request. *)
Theorem load_snapshots_empty_filter (w : session P) :
  load_snapshots P A ctx [] w = (Thrown (Builtin IndexError), w).
Proof.
  unfold load_snapshots. rewrite client_built.
  unfold getitem. by rewrite project_set.
Qed.
End ClientFacts.

Lemma source_disk_last_four_witness :
  source_disk
    (Fixture.listed "pv-data-031126-120000" "2026-11-03T04:00:00.000-08:00"
       "https://www.googleapis.com/compute/v1/projects/my-project/zones/europe-west1-b/disks/disk-1")
  = Done ("europe-west1-b", "disk-1").
Proof.
  refine (source_disk_last_four _
            "https://www.googleapis.com/compute/v1/projects/my-project"
            "zones" "europe-west1-b" "disks" "disk-1" _ _ _ _ _);
    vm_compute; reflexivity.
Defined.

Lemma source_disk_needs_three_slashes_witness :
  source_disk (Fixture.listed "pv-data" "2026-11-03T04:00:00.000-08:00"
                 "europe-west1-b/disks/disk-1")
  = Thrown ValueError.
Proof.
  refine (proj1 (source_disk_needs_three_slashes _ "europe-west1-b/disks/disk-1" _) _).
  - vm_compute; reflexivity.
  - vm_compute; lia.
Defined.

Lemma load_snapshots_in_order_witness :
  fst (load_snapshots Fixture.project Fixture.api
         (Fixture.ctx "/secrets/key.json")
         [("created-by", "k8s-snapshots")] Fixture.fresh)
  = Done
      [ {| Snapshot.name := JStr "pv-data-031126-120000";
           Snapshot.created_at := "2026-11-03T04:00:00.000-08:00";
           Snapshot.disk := {| name := JStr "disk-1"; zone := "europe-west1-b" |} |};
        {| Snapshot.name := JStr "pv-logs-041126-120000";
           Snapshot.created_at := "2026-11-04T04:00:00.000-08:00";
           Snapshot.disk := {| name := JStr "disk-2"; zone := "europe-west1-c" |} |} ].
Proof.
  refine (f_equal fst
            (load_snapshots_in_order Fixture.project Fixture.api
               (Fixture.ctx "/secrets/key.json") "file:/secrets/key.json"
               "my-project" _ _ "created-by" "k8s-snapshots" []
               Fixture.fresh (Some Fixture.items) _ _ _)).
  - vm_compute; reflexivity.
  - vm_compute; reflexivity.
  - reflexivity.
  - repeat constructor.
Defined.

Lemma load_snapshots_empty_filter_witness :
  load_snapshots Fixture.project Fixture.api (Fixture.ctx "/secrets/key.json")
    [] Fixture.fresh
  = (Thrown (Builtin IndexError), Fixture.fresh).
Proof.
  refine (load_snapshots_empty_filter Fixture.project Fixture.api
            (Fixture.ctx "/secrets/key.json") "file:/secrets/key.json"
            "my-project" _ _ Fixture.fresh);
    vm_compute; reflexivity.
Defined.

Section Mutations.
Variable P : platform.
Variable A : service_api P.
Variables (ctx : Context) (gcloud : client P) (project : string).
Hypothesis client_built : get_gcloud P ctx = Ok gcloud.
Hypothesis project_set : config ctx !! "gcloud_project" = Some project.

Local Abbreviation creation disk snapshot_name snapshot_description :=
  (DisksCreateSnapshot (name disk) project (zone disk)
     (JObj {[ "name" := JStr snapshot_name;
              "description" := JStr snapshot_description ]})).

Lemma create_snapshot_steps (disk : GoogleDiskIdentifier)
    (snapshot_name snapshot_description : string) (w : session P)
    (operation : json) :
  fst (mutate A gcloud (creation disk snapshot_name snapshot_description)
         (backend w)) = Returned operation ->
  create_snapshot P A ctx disk snapshot_name snapshot_description w =
  (match jgetitem operation "name" with
   | Ok operation_name =>
       Ok {[ "snapshot_name" := JStr snapshot_name;
             "zone" := JStr (zone disk);
             "operation_name" := operation_name ]}
   | Raise e => Raise e
   end,
   Build_session P
     (snd (mutate A gcloud (creation disk snapshot_name snapshot_description)
             (backend w)))
     (exchanges w ++
      [Mutated (creation disk snapshot_name snapshot_description)
         (Returned operation)])).
Proof.
  unfold create_snapshot, change, mbind, M_bind, Py.bind, lift, getitem,
    mret, M_ret, Py.ret.
  rewrite client_built, project_set.
  destruct (mutate A gcloud _ (backend w)) as [resp s1]. cbn [fst snd].
  intros ->. cbn [from_library].
  by destruct (jgetitem operation "name").
Qed.

(** X24. [create_snapshot] sends one request, the creation on the disk
    in its zone, and makes the handle of the name asked for, the zone of
    the disk and the name of the operation in the answer. When the answer
    has no name it raises, the request having been sent. *)
Theorem create_snapshot_handle (disk : GoogleDiskIdentifier)
    (snapshot_name snapshot_description : string) (w : session P)
    (operation : json) :
  fst (mutate A gcloud (creation disk snapshot_name snapshot_description)
         (backend w)) = Returned operation ->
  create_snapshot P A ctx disk snapshot_name snapshot_description w =
  (match jgetitem operation "name" with
   | Ok operation_name =>
       Ok {[ "snapshot_name" := JStr snapshot_name;
             "zone" := JStr (zone disk);
             "operation_name" := operation_name ]}
   | Raise e => Raise e
   end,
   Build_session P
     (snd (mutate A gcloud (creation disk snapshot_name snapshot_description)
             (backend w)))
     (exchanges w ++
      [Mutated (creation disk snapshot_name snapshot_description)
         (Returned operation)])).
Proof. apply create_snapshot_steps. Qed.

(** X25. [create_snapshot] and [get_snapshot_status] compose. When the
    operation in the answer is called [n], the handle returned is the one
    of three keys: the snapshot name asked for, the zone of the disk and
    the operation name [n]. The first request of a status check on that
    handle is the read of operation [n] in the zone of the disk, and when
    that read reports DONE the check sends one more request, the read of
    the snapshot of the name asked for. *)
Theorem create_then_poll (disk : GoogleDiskIdentifier)
    (snapshot_name snapshot_description : string) (w : session P)
    (operation : json) (n : string)
    (t : list (request * outcome json)) :
  fst (mutate A gcloud (creation disk snapshot_name snapshot_description)
         (backend w)) = Returned operation ->
  jgetitem operation "name" = Ok (JStr n) ->
  let handle : gmap string string :=
    {[ "snapshot_name" := snapshot_name; "zone" := zone disk;
       "operation_name" := n ]} in
  let created :=
    create_snapshot P A ctx disk snapshot_name snapshot_description w in
  let started := Build_world P (backend (snd created)) t in
  let operation_read := ZoneOperationsGet project (zone disk) n in
  let snapshot_read := SnapshotsGet snapshot_name project in
  let o1 := execute P gcloud operation_read (backend (snd created)) in
  let o2 := execute P gcloud snapshot_read (snd o1) in
  fst created = Ok (JStr <$> handle) /\
  (handle !! "snapshot_name" = Some snapshot_name /\
   handle !! "zone" = Some (zone disk) /\
   handle !! "operation_name" = Some n /\
   dom handle = {[ "snapshot_name"; "zone"; "operation_name" ]}) /\
  (exists rest,
     trace (snd (get_snapshot_status P ctx handle started))
     = (t ++ (operation_read, fst o1) :: rest)%list) /\
  (operation_status P gcloud project (zone disk) n started
   = Ok (JStr "DONE") ->
   trace (snd (get_snapshot_status P ctx handle started))
   = (t ++ [(operation_read, fst o1); (snapshot_read, fst o2)])%list).
Proof.
  intros Hsent Hname. cbv zeta.
  rewrite (create_snapshot_steps disk snapshot_name snapshot_description w
             operation Hsent), Hname.
  cbn [fst snd backend].
  generalize (snd (mutate A gcloud
                     (creation disk snapshot_name snapshot_description)
                     (backend w))). intros s1.
  set (handle := ({[ "snapshot_name" := snapshot_name; "zone" := zone disk;
                     "operation_name" := n ]} : gmap string string)).
  assert (Hsnapshot : handle !! "snapshot_name" = Some snapshot_name)
    by apply lookup_insert_eq.
  assert (Hzone : handle !! "zone" = Some (zone disk)).
  { unfold handle. rewrite lookup_insert_ne by done. apply lookup_insert_eq. }
  assert (Hoperation : handle !! "operation_name" = Some n).
  { unfold handle. rewrite !lookup_insert_ne by done.
    apply lookup_singleton_eq. }
  split; [|split; [|split]].
  - unfold handle. by rewrite !fmap_insert, map_fmap_singleton.
  - by repeat split.
  - rewrite (poll_steps P ctx handle gcloud project (zone disk) n
               snapshot_name client_built project_set Hzone Hoperation
               Hsnapshot).
    cbv zeta. cbn [service trace].
    destruct (operation_status _ _ _ _ _ _) as [st|e];
      [destruct (eq_str st "DONE")|]; cbn [snd trace].
    + rewrite <- app_assoc. by eexists.
    + by exists [].
    + by exists [].
  - intros Hdone.
    rewrite (poll_steps P ctx handle gcloud project (zone disk) n
               snapshot_name client_built project_set Hzone Hoperation
               Hsnapshot).
    cbv zeta. rewrite Hdone. cbn [eq_str]. rewrite String.eqb_refl.
    cbn [snd trace service]. by rewrite <- app_assoc.
Qed.
End Mutations.

Lemma create_snapshot_handle_witness :
  fst (create_snapshot Fixture.project Fixture.api
         (Fixture.ctx "/secrets/key.json") Fixture.disk1
         "pv-data-041126-120000" "k8s-snapshots" Fixture.fresh)
  = Ok {[ "snapshot_name" := JStr "pv-data-041126-120000";
          "zone" := JStr "europe-west1-b";
          "operation_name" := JStr "operation-17" ]}.
Proof.
  refine (f_equal fst
            (create_snapshot_handle Fixture.project Fixture.api
               (Fixture.ctx "/secrets/key.json") "file:/secrets/key.json"
               "my-project" _ _ Fixture.disk1 "pv-data-041126-120000"
               "k8s-snapshots" Fixture.fresh
               Fixture.created_operation _));
    vm_compute; reflexivity.
Defined.

Lemma create_then_poll_witness :
  fst (create_snapshot Fixture.project Fixture.api
         (Fixture.ctx "/secrets/key.json") Fixture.disk1
         "pv-data-041126-120000" "k8s-snapshots" Fixture.fresh)
  = Ok (JStr <$> ({[ "snapshot_name" := "pv-data-041126-120000";
                     "zone" := zone Fixture.disk1;
                     "operation_name" := "operation-17" ]}
                  : gmap string string)).
Proof.
  refine (proj1 (create_then_poll Fixture.project Fixture.api
                   (Fixture.ctx "/secrets/key.json") "file:/secrets/key.json"
                   "my-project" _ _ Fixture.disk1
                   "pv-data-041126-120000" "k8s-snapshots" Fixture.fresh
                   Fixture.created_operation "operation-17" [] _ _));
    vm_compute; reflexivity.
Defined.

Section Labels.
Variable P : platform.
Variable A : service_api P.
Variables (ctx : Context) (snapshot_identifier : gmap string string).
Variables (gcloud : client P) (project snapshot_name : string).
Hypothesis client_built : get_gcloud P ctx = Ok gcloud.
Hypothesis project_set : config ctx !! "gcloud_project" = Some project.
Hypothesis handle_snapshot :
  snapshot_identifier !! "snapshot_name" = Some snapshot_name.

Local Abbreviation snapshot_read := (SnapshotsGet snapshot_name project).

(** X26. [set_snapshot_labels] reads the snapshot and then writes: its
    two requests are the read and a [setLabels] whose body holds the
    labels given and the fingerprint that the read has just returned; the
    write is sent to the service as the read has left it. *)
Theorem set_snapshot_labels_read_then_write (labels : gmap string json)
    (w : session P) (snapshot fp : json) :
  fst (execute P gcloud snapshot_read (backend w)) = Returned snapshot ->
  jgetitem snapshot "labelFingerprint" = Ok fp ->
  let s1 := snd (execute P gcloud snapshot_read (backend w)) in
  let write :=
    SnapshotsSetLabels snapshot_name project
      (JObj {[ "labels" := JObj labels; "labelFingerprint" := fp ]}) in
  set_snapshot_labels P A ctx snapshot_identifier labels w =
  (from_library (fst (mutate A gcloud write s1)),
   Build_session P (snd (mutate A gcloud write s1))
     (exchanges w ++
      [Fetched snapshot_read (Returned snapshot);
       Mutated write (fst (mutate A gcloud write s1))])).
Proof.
  unfold set_snapshot_labels, fetch, change, mbind, M_bind, Py.bind, lift,
    getitem.
  rewrite client_built, handle_snapshot, project_set.
  destruct (execute P gcloud snapshot_read (backend w)) as [resp s1].
  cbn [fst snd]. intros -> Hfp. cbn [from_library]. rewrite Hfp.
  cbv zeta. cbn [backend exchanges].
  destruct (mutate A gcloud _ s1) as [resp2 s2]. cbn [fst snd].
  by rewrite <- app_assoc.
Qed.

(** X27. Without a fingerprint nothing is written: when the read fails,
    or answers without [labelFingerprint], [set_snapshot_labels] raises
    that error and the read is its only request. *)
Theorem set_snapshot_labels_needs_fingerprint (labels : gmap string json)
    (w : session P) (e : exn) :
  match from_library (fst (execute P gcloud snapshot_read (backend w))) with
  | Ok snapshot => jgetitem snapshot "labelFingerprint"
  | Raise e' => Raise e'
  end = Raise e ->
  set_snapshot_labels P A ctx snapshot_identifier labels w =
  (Raise e,
   Build_session P (snd (execute P gcloud snapshot_read (backend w)))
     (exchanges w ++
      [Fetched snapshot_read
         (fst (execute P gcloud snapshot_read (backend w)))])).
Proof.
  unfold set_snapshot_labels, fetch, change, mbind, M_bind, Py.bind, lift,
    getitem.
  rewrite client_built, handle_snapshot, project_set.
  destruct (execute P gcloud snapshot_read (backend w)) as [resp s1].
  cbn [fst snd]. destruct (from_library resp) as [snapshot|e']; [|by intros [= ->]].
  by intros ->.
Qed.
End Labels.

(** X28. No request without a client: when [get_gcloud] raises, the
    listing, the creation, the labelling and the deletion raise the same
    error and leave the session as it was. *)
Theorem no_request_without_client (P : platform) (A : service_api P)
    (ctx : Context) (e : exn) (w : session P) :
  get_gcloud P ctx = Raise e ->
  (forall label_filters,
     load_snapshots P A ctx label_filters w = (Thrown (Builtin e), w)) /\
  (forall disk snapshot_name snapshot_description,
     create_snapshot P A ctx disk snapshot_name snapshot_description w
     = (Raise e, w)) /\
  (forall snapshot_identifier labels,
     set_snapshot_labels P A ctx snapshot_identifier labels w = (Raise e, w)) /\
  (forall snapshot, delete_snapshot P A ctx snapshot w = (Raise e, w)).
Proof.
  intros Hclient.
  unfold load_snapshots, create_snapshot, set_snapshot_labels, delete_snapshot,
    mbind, M_bind, Py.bind, lift.
  rewrite Hclient. repeat split.
Qed.

(** X29. No request without a project: with a client but no
    [gcloud_project] in the configuration, the listing, the creation and
    the deletion raise [KeyError] and leave the session as it was, and so
    does the labelling of a handle that has its snapshot name. *)
Theorem no_request_without_project (P : platform) (A : service_api P)
    (ctx : Context) (gcloud : client P) (w : session P) :
  get_gcloud P ctx = Ok gcloud ->
  config ctx !! "gcloud_project" = None ->
  (forall label_filters,
     load_snapshots P A ctx label_filters w
     = (Thrown (Builtin (KeyError "gcloud_project")), w)) /\
  (forall disk snapshot_name snapshot_description,
     create_snapshot P A ctx disk snapshot_name snapshot_description w
     = (Raise (KeyError "gcloud_project"), w)) /\
  (forall snapshot_identifier labels snapshot_name,
     snapshot_identifier !! "snapshot_name" = Some snapshot_name ->
     set_snapshot_labels P A ctx snapshot_identifier labels w
     = (Raise (KeyError "gcloud_project"), w)) /\
  (forall snapshot,
     delete_snapshot P A ctx snapshot w
     = (Raise (KeyError "gcloud_project"), w)).
Proof.
  intros Hclient Hproject.
  unfold load_snapshots, create_snapshot, set_snapshot_labels, delete_snapshot,
    mbind, M_bind, Py.bind, lift, getitem.
  rewrite Hclient, Hproject. repeat split.
  intros snapshot_identifier labels snapshot_name ->. reflexivity.
Qed.

Lemma load_snapshots_all_or_nothing_witness :
  fst (load_snapshots Fixture.project
         (Fixture.api_listing
            (Fixture.items ++
             [Fixture.listed "pv-old" "2026-11-01T04:00:00.000-08:00"
                "europe-west1-b/disks/disk-1"]))
         (Fixture.ctx "/secrets/key.json")
         [("created-by", "k8s-snapshots")] Fixture.fresh)
  = Thrown ValueError.
Proof.
  refine (load_snapshots_all_or_nothing Fixture.project _
            (Fixture.ctx "/secrets/key.json") "file:/secrets/key.json"
            "my-project" _ _ "created-by" "k8s-snapshots" []
            Fixture.fresh Fixture.items [] _ _ ValueError _ _ _).
  - vm_compute; reflexivity.
  - vm_compute; reflexivity.
  - reflexivity.
  - repeat econstructor.
  - vm_compute; reflexivity.
Defined.

Lemma set_snapshot_labels_read_then_write_witness :
  fst (set_snapshot_labels Fixture.project Fixture.api
         (Fixture.ctx "/secrets/key.json") Sample.handle
         {[ "created-by" := JStr "k8s-snapshots" ]} Fixture.fresh)
  = Ok (JObj {[ "kind" := JStr "compute#operation" ]}).
Proof.
  refine (eq_trans
            (f_equal fst
               (set_snapshot_labels_read_then_write Fixture.project Fixture.api
                  (Fixture.ctx "/secrets/key.json") Sample.handle
                  "file:/secrets/key.json" "my-project" "pv-data-041126-120000"
                  _ _ _ {[ "created-by" := JStr "k8s-snapshots" ]} Fixture.fresh
                  (Fixture.snapshot_resource "pv-data-041126-120000" "42WmSpB8rSM=")
                  (JStr "42WmSpB8rSM=") _ _)) _);
    vm_compute; reflexivity.
Defined.

Lemma set_snapshot_labels_needs_fingerprint_witness :
  set_snapshot_labels Fixture.offline Fixture.offline_api
    (Fixture.ctx "/secrets/key.json") Sample.handle
    {[ "created-by" := JStr "k8s-snapshots" ]} Fixture.fresh_offline
  = (Raise (LibraryError "503 Service Unavailable"),
     Build_session Fixture.offline
       {| Fixture.fingerprint := "42WmSpB8rSM="; Fixture.changes := 0 |}
       [Fetched (SnapshotsGet "pv-data-041126-120000" "my-project")
          (Failed "503 Service Unavailable")]).
Proof.
  refine (set_snapshot_labels_needs_fingerprint Fixture.offline
            Fixture.offline_api (Fixture.ctx "/secrets/key.json") Sample.handle
            "file:/secrets/key.json" "my-project" "pv-data-041126-120000"
            _ _ _ _ Fixture.fresh_offline _ _);
    vm_compute; reflexivity.
Defined.

Lemma no_request_without_client_witness :
  delete_snapshot Fixture.project Fixture.api (Fixture.ctx EmptyString)
    {| Snapshot.name := JStr "pv-data-031126-120000";
       Snapshot.created_at := "2026-11-03T04:00:00.000-08:00";
       Snapshot.disk := Fixture.disk1 |} Fixture.fresh
  = (Raise (RuntimeError "Auth for Google Cloud was not configured"),
     Fixture.fresh).
Proof.
  refine (proj2 (proj2 (proj2 (no_request_without_client Fixture.project
                                 Fixture.api (Fixture.ctx EmptyString) _
                                 Fixture.fresh _))) _).
  vm_compute; reflexivity.
Defined.

Lemma no_request_without_project_witness :
  create_snapshot Fixture.project Fixture.api
    {| config := {[ "gcloud_json_keyfile_name" := "/secrets/key.json" ]} |}
    Fixture.disk1 "pv-data-041126-120000" "k8s-snapshots" Fixture.fresh
  = (Raise (KeyError "gcloud_project"), Fixture.fresh).
Proof.
  refine (proj1 (proj2 (no_request_without_project Fixture.project Fixture.api
                          _ "file:/secrets/key.json" Fixture.fresh _ _)) _ _ _);
    vm_compute; reflexivity.
Defined.
